(** * pelicanconf: the site configuration of mooseberrytech.github.io

    The repository is one Python module, [pelicanconf.py], made of
    module-level assignments of literals.  The site generator reads the
    module once and takes every upper-case name as a setting.

    The development has four parts:
    - the settings record and the value [pelicanconf] the module binds;
    - the format-string reader the generator applies to URL templates;
    - Python literals, their [repr] and a reader for the subset of Python
      the module is written in, so that loading is a function on text,
      with the text of the file itself;
    - the properties of the configuration, and the proof that what
      [repr] writes is read back. *)

From Stdlib Require Import ZArith Ascii String List Sorted.
From stdpp Require Import gmap strings list pretty.

Local Open Scope Z_scope.

(** ** Data model *)

(** The value bound to one key of [AUTHOR_META]: a dict with the four
    string entries ["name"], ["image"], ["linkedin"] and ["bio"]. *)
Record author_meta : Type := AuthorMeta {
  name : string;
  image : string;
  linkedin : string;
  bio : string
}.

(** One field per name assigned in [pelicanconf.py], in the order of the
    file.  A Python tuple of tuples is a list of Rocq tuples, [None] or a
    string is an [option string], an [int] is a [Z], and the dict is a
    finite map. *)
Record Settings : Type := MkSettings {
  AUTHOR : string;
  SITENAME : string;
  SITEURL : string;
  THEME : string;
  PATH : string;
  TIMEZONE : string;
  DEFAULT_LANG : string;
  FEED_ALL_ATOM : option string;
  CATEGORY_FEED_ATOM : option string;
  TRANSLATION_FEED_ATOM : option string;
  AUTHOR_FEED_ATOM : option string;
  AUTHOR_FEED_RSS : option string;
  MENUITEMS : list (string * string);
  LINKS : list (string * string);
  SOCIAL : list (string * string);
  DEFAULT_PAGINATION : Z;
  PAGINATION_PATTERNS : list (Z * string * string);
  ARTICLE_URL : string;
  ARTICLE_SAVE_AS : string;
  PAGE_URL : string;
  PAGE_SAVE_AS : string;
  YEAR_ARCHIVE_SAVE_AS : string;
  MONTH_ARCHIVE_SAVE_AS : string;
  CATEGORY_URL : string;
  CATEGORY_SAVE_AS : string;
  CATEGORIES_SAVE_AS : string;
  TAG_URL : string;
  TAG_SAVE_AS : string;
  TAGS_SAVE_AS : string;
  AUTHOR_URL : string;
  AUTHOR_SAVE_AS : string;
  AUTHORS_SAVE_AS : string;
  AUTHOR_META : gmap string author_meta;
  HOME_COVER : string
}.

(** The module [pelicanconf.py], value by value. *)
Definition pelicanconf : Settings := {|
  AUTHOR := "Adriana Vasiu";
  SITENAME := "";
  SITEURL := "";
  THEME := "themes/attila";
  PATH := "content";
  TIMEZONE := "Europe/London";
  DEFAULT_LANG := "en";
  FEED_ALL_ATOM := None;
  CATEGORY_FEED_ATOM := None;
  TRANSLATION_FEED_ATOM := None;
  AUTHOR_FEED_ATOM := None;
  AUTHOR_FEED_RSS := None;
  MENUITEMS :=
    [ ("Home", "/");
      ("Author", "/author/adriana-vasiu/");
      ("Testing", "/category/testing/");
      ("Development", "/category/development/");
      ("Instrumentation", "/category/instrumentation/");
      ("Automation", "/category/automation/");
      ("Ways of Working", "/category/ways-of-working/") ];
  LINKS := [];
  SOCIAL :=
    [ ("You can add links in your config file", "#");
      ("Another social link", "#") ];
  DEFAULT_PAGINATION := 3;
  PAGINATION_PATTERNS :=
    [ (1, "{base_name}/", "{base_name}/index.html");
      (2, "{base_name}/page/{number}/", "{base_name}/page/{number}/index.html") ];
  ARTICLE_URL := "{date:%Y}/{date:%m}/{slug}.html";
  ARTICLE_SAVE_AS := "{date:%Y}/{date:%m}/{slug}.html";
  PAGE_URL := "pages/{slug}/";
  PAGE_SAVE_AS := "pages/{slug}/index.html";
  YEAR_ARCHIVE_SAVE_AS := "{date:%Y}/index.html";
  MONTH_ARCHIVE_SAVE_AS := "{date:%Y}/{date:%m}/index.html";
  CATEGORY_URL := "category/{slug}";
  CATEGORY_SAVE_AS := "category/{slug}/index.html";
  CATEGORIES_SAVE_AS := "catgegories.html";
  TAG_URL := "tag/{slug}";
  TAG_SAVE_AS := "tag/{slug}/index.html";
  TAGS_SAVE_AS := "tags.html";
  AUTHOR_URL := "author/{slug}";
  AUTHOR_SAVE_AS := "author/{slug}/index.html";
  AUTHORS_SAVE_AS := "authors.html";
  AUTHOR_META :=
    {[ "adriana vasiu" :=
         {| name := "Adriana Vasiu";
            image := "images/mooseberry_tech-512x512-NO-TEXT.png";
            linkedin := "adrianavasiu";
            bio := "I currently work as a consultant on software development." |} ]};
  HOME_COVER := "images/mooseberry_tech-BACKGOURND.jpg"
|}.

(** The five feed settings, in file order. *)
Definition feed_settings (c : Settings) : list (option string) :=
  [ FEED_ALL_ATOM c; CATEGORY_FEED_ATOM c; TRANSLATION_FEED_ATOM c;
    AUTHOR_FEED_ATOM c; AUTHOR_FEED_RSS c ].

(** Modelled from the spec: the engine, which is not part of the
    repository, takes [None] or an empty value on a feed setting as
    "feature disabled". *)
Definition feed_enabled (f : option string) : bool :=
  match f with
  | Some (String _ _) => true
  | _ => false
  end.

(** The thresholds of the pagination patterns, in file order. *)
Definition thresholds (c : Settings) : list Z :=
  map (fun p => fst (fst p)) (PAGINATION_PATTERNS c).

(** A list of integers is strictly ascending. *)
Fixpoint ascending (l : list Z) : bool :=
  match l with
  | [] => true
  | x :: r =>
      match r with
      | [] => true
      | y :: _ => (x <? y) && ascending r
      end
  end.

(** ** Format strings

    The generator expands every URL and save-path template with Python's
    [str.format].  [parse_format] reads a template the way [str.format]
    does: text is copied, [{{] and [}}] stand for one brace, and
    [{name}] or [{name:spec}] is a replacement field.  A lone [}], an
    unclosed field, a [{] inside a field and a conversion ([!r]) are
    refused ([None]); the module uses none of them. *)

Inductive piece : Type :=
  | Lit (c : ascii)
  | Field (fname : string) (spec : string).

Inductive fmt_mode : Type :=
  | InText
  | InName (acc : string)
  | InSpec (fname : string) (acc : string).

Definition snoc (s : string) (c : ascii) : string := s +:+ String c "".

Fixpoint parse_format (m : fmt_mode) (s : string) : option (list piece) :=
  match s with
  | "" => match m with InText => Some [] | _ => None end
  | String c r =>
      match m with
      | InText =>
          if Ascii.eqb c "{" then
            match r with
            | String "{" r' => cons (Lit "{") <$> parse_format InText r'
            | _ => parse_format (InName "") r
            end
          else if Ascii.eqb c "}" then
            match r with
            | String "}" r' => cons (Lit "}") <$> parse_format InText r'
            | _ => None
            end
          else cons (Lit c) <$> parse_format InText r
      | InName acc =>
          if Ascii.eqb c "}" then cons (Field acc "") <$> parse_format InText r
          else if Ascii.eqb c ":" then parse_format (InSpec acc "") r
          else if Ascii.eqb c "{" || Ascii.eqb c "!" then None
          else parse_format (InName (snoc acc c)) r
      | InSpec f acc =>
          if Ascii.eqb c "}" then cons (Field f acc) <$> parse_format InText r
          else if Ascii.eqb c "{" then None
          else parse_format (InSpec f (snoc acc c)) r
      end
  end.

Definition field_names (ps : list piece) : list string :=
  omap (fun p => match p with Field f _ => Some f | Lit _ => None end) ps.

(** The placeholder tokens of a template, in order of appearance. *)
Definition placeholders (t : string) : option (list string) :=
  field_names <$> parse_format InText t.

(** [str.format]: [lookup f spec] is the text the engine supplies for
    field [f] under format spec [spec]; a field it does not supply makes
    the expansion fail, as [KeyError] does. *)
Fixpoint fill (lookup : string -> string -> option string) (ps : list piece)
  : option string :=
  match ps with
  | [] => Some ""
  | Lit c :: r => String c <$> fill lookup r
  | Field f sp :: r =>
      match lookup f sp, fill lookup r with
      | Some x, Some y => Some (x +:+ y)
      | _, _ => None
      end
  end.

Definition format (lookup : string -> string -> option string) (t : string)
  : option string :=
  parse_format InText t ≫= fill lookup.

(** What the engine supplies to an article template: the year and the
    month of the article's date under the specs [%Y] and [%m], and its
    slug. *)
Definition article_fields (year month slug : string) (f spec : string)
  : option string :=
  if String.eqb f "date" then
    if String.eqb spec "%Y" then Some year
    else if String.eqb spec "%m" then Some month
    else None
  else if String.eqb f "slug" then
    if String.eqb spec "" then Some slug else None
  else None.

(** Every template of the configuration: the URL and save-path settings
    and both templates of each pagination pattern. *)
Definition templates (c : Settings) : list string :=
  [ ARTICLE_URL c; ARTICLE_SAVE_AS c; PAGE_URL c; PAGE_SAVE_AS c;
    YEAR_ARCHIVE_SAVE_AS c; MONTH_ARCHIVE_SAVE_AS c;
    CATEGORY_URL c; CATEGORY_SAVE_AS c; CATEGORIES_SAVE_AS c;
    TAG_URL c; TAG_SAVE_AS c; TAGS_SAVE_AS c;
    AUTHOR_URL c; AUTHOR_SAVE_AS c; AUTHORS_SAVE_AS c ]
  ++ flat_map (fun p => [snd (fst p); snd p]) (PAGINATION_PATTERNS c).

(** The overview pages: all categories, all tags, all authors. *)
Definition overview_save_paths (c : Settings) : list string :=
  [ CATEGORIES_SAVE_AS c; TAGS_SAVE_AS c; AUTHORS_SAVE_AS c ].

(** The tokens the engine supplies to templates. *)
Definition engine_tokens : list string :=
  [ "date"; "slug"; "number"; "base_name" ].

Definition has_char (c : ascii) (s : string) : bool :=
  existsb (Ascii.eqb c) (list_ascii_of_string s).

(** ** Author keys *)

Definition is_upper (c : ascii) : bool :=
  (65 <=? nat_of_ascii c)%nat && (nat_of_ascii c <=? 90)%nat.

(** [str.lower] on one ASCII character. *)
Definition lower (c : ascii) : ascii :=
  if is_upper c then ascii_of_nat (nat_of_ascii c + 32) else c.

(** [str.isspace] on one ASCII character. *)
Definition is_space (c : ascii) : bool :=
  let n := nat_of_ascii c in
  (n =? 32)%nat || ((9 <=? n)%nat && (n <=? 13)%nat)
  || ((28 <=? n)%nat && (n <=? 31)%nat).

Fixpoint map_string (f : ascii -> ascii) (s : string) : string :=
  match s with
  | "" => ""
  | String c r => String (f c) (map_string f r)
  end.

(** Lower-case a display name and write [sep] for each whitespace
    character. *)
Definition normalize (sep : ascii) (s : string) : string :=
  map_string (fun c => if is_space c then sep else lower c) s.

(** The keys of [AUTHOR_META] separate words with one space. *)
Definition key_separator : ascii := " ".

(** Slugs separate words with a hyphen. *)
Definition slug_separator : ascii := "-".

Definition is_lowercase (s : string) : bool :=
  forallb (fun c => negb (is_upper c)) (list_ascii_of_string s).

(** Replace every occurrence of character [a] by [b]. *)
Definition replace_char (a b : ascii) (s : string) : string :=
  map_string (fun c => if Ascii.eqb c a then b else c) s.

(** ** Menu paths *)

Definition is_alpha (c : ascii) : bool :=
  is_upper c || ((97 <=? nat_of_ascii c)%nat && (nat_of_ascii c <=? 122)%nat).

Definition is_digit (c : ascii) : bool :=
  (48 <=? nat_of_ascii c)%nat && (nat_of_ascii c <=? 57)%nat.

(** The rest of a URI scheme: letters, digits, [+], [-] and [.] up to a
    colon. *)
Fixpoint scheme_rest (s : string) : bool :=
  match s with
  | "" => false
  | String c r =>
      if Ascii.eqb c ":" then true
      else if is_alpha c || is_digit c || Ascii.eqb c "+" || Ascii.eqb c "-"
              || Ascii.eqb c "."
      then scheme_rest r
      else false
  end.

(** The reference starts with a scheme ([http:], [mailto:], ...). *)
Definition has_scheme (s : string) : bool :=
  match s with
  | String c r => is_alpha c && scheme_rest r
  | "" => false
  end.

(** The reference names a host ([//host/...]). *)
Definition has_authority (s : string) : bool :=
  match s with
  | String "/" (String "/" _) => true
  | _ => false
  end.

(** A path fragment: neither a scheme nor a host. *)
Definition is_relative (s : string) : bool :=
  negb (has_scheme s) && negb (has_authority s).

(** The labels of the menu in the order the theme walks [MENUITEMS]. *)
Definition display_order (c : Settings) : list string :=
  map fst (MENUITEMS c).

(** ** Python literals

    The values the module binds: [None], integers, strings, tuples and
    dicts. *)

#[local] Set Warnings "-register-all".

Inductive pyval : Type :=
  | VNone
  | VInt (z : Z)
  | VStr (s : string)
  | VTuple (items : list pyval)
  | VDict (entries : list (pyval * pyval)).

Definition quote : ascii := "'".
Definition dquote : ascii := "034".
Definition backslash : ascii := "092".
Definition newline : ascii := "010".
Definition tab : ascii := "009".
Definition cr : ascii := "013".

Fixpoint join (sep : string) (l : list string) : string :=
  match l with
  | [] => ""
  | x :: r => match r with [] => x | _ => x +:+ sep +:+ join sep r end
  end.

(** [repr] of a string: single quotes, unless the string holds a single
    quote and no double quote; the quote in use, the backslash, newline,
    tab and carriage return are escaped, and every other character is
    written as it is. *)
Definition repr_quote (s : string) : ascii :=
  if has_char quote s && negb (has_char dquote s) then dquote else quote.

Fixpoint escape (q : ascii) (s : string) : string :=
  match s with
  | "" => ""
  | String c r =>
      (if Ascii.eqb c backslash then String backslash (String backslash "")
       else if Ascii.eqb c q then String backslash (String q "")
       else if Ascii.eqb c newline then String backslash "n"
       else if Ascii.eqb c tab then String backslash "t"
       else if Ascii.eqb c cr then String backslash "r"
       else String c "") +:+ escape q r
  end.

Definition repr_str (s : string) : string :=
  let q := repr_quote s in String q (escape q s) +:+ String q "".

Fixpoint repr (v : pyval) : string :=
  match v with
  | VNone => "None"
  | VInt z => pretty z
  | VStr s => repr_str s
  | VTuple items =>
      match items with
      | [] => "()"
      | [x] => "(" +:+ repr x +:+ ",)"
      | _ => "(" +:+ join ", " (map repr items) +:+ ")"
      end
  | VDict entries =>
      "{" +:+ join ", " (map (fun '(k, x) => repr k +:+ ": " +:+ repr x) entries)
      +:+ "}"
  end.

(** ** Reading the module

    [pelicanconf.py] is written in a small part of Python: comments,
    blank lines and assignments [NAME = literal], where a literal is
    [None], a decimal integer, a quoted string, a parenthesised tuple or
    a dict display.  [lex] and [parse_module] read that part and refuse
    everything else. *)

Inductive token : Type :=
  | TName (x : string)
  | TStr (s : string)
  | TInt (z : Z)
  | TEq
  | TLPar
  | TRPar
  | TLBrace
  | TRBrace
  | TComma
  | TColon
  | TNewline.

Inductive lex_mode : Type :=
  | LDefault
  | LComment
  | LStr (q : ascii) (acc : string)
  | LEsc (q : ascii) (acc : string)
  | LName (acc : string)
  | LMinus
  | LNum (neg : bool) (acc : Z).

Definition is_ident_start (c : ascii) : bool := is_alpha c || Ascii.eqb c "_".
Definition is_ident_char (c : ascii) : bool := is_ident_start c || is_digit c.
Definition digit_value (c : ascii) : Z := Z.of_nat (nat_of_ascii c) - 48.

(** The character an escape sequence stands for. *)
Definition unescape (c : ascii) : option ascii :=
  if Ascii.eqb c backslash then Some backslash
  else if Ascii.eqb c quote then Some quote
  else if Ascii.eqb c dquote then Some dquote
  else if Ascii.eqb c "n" then Some newline
  else if Ascii.eqb c "t" then Some tab
  else if Ascii.eqb c "r" then Some cr
  else None.

(** One character met outside a token, at bracket depth [depth]: the
    tokens it completes, the mode and the depth that follow.  A line end
    inside brackets is not a token. *)
Definition start_char (c : ascii) (depth : nat)
  : option (list token * lex_mode * nat) :=
  if Ascii.eqb c "#" then Some ([], LComment, depth)
  else if Ascii.eqb c " " || Ascii.eqb c tab || Ascii.eqb c cr
  then Some ([], LDefault, depth)
  else if Ascii.eqb c newline
  then Some (match depth with O => [TNewline] | _ => [] end, LDefault, depth)
  else if Ascii.eqb c quote || Ascii.eqb c dquote then Some ([], LStr c "", depth)
  else if is_digit c then Some ([], LNum false (digit_value c), depth)
  else if Ascii.eqb c "-" then Some ([], LMinus, depth)
  else if is_ident_start c then Some ([], LName (String c ""), depth)
  else if Ascii.eqb c "=" then Some ([TEq], LDefault, depth)
  else if Ascii.eqb c "," then Some ([TComma], LDefault, depth)
  else if Ascii.eqb c ":" then Some ([TColon], LDefault, depth)
  else if Ascii.eqb c "(" then Some ([TLPar], LDefault, S depth)
  else if Ascii.eqb c "{" then Some ([TLBrace], LDefault, S depth)
  else if Ascii.eqb c ")"
  then match depth with O => None | S d => Some ([TRPar], LDefault, d) end
  else if Ascii.eqb c "}"
  then match depth with O => None | S d => Some ([TRBrace], LDefault, d) end
  else None.

Definition signed (neg : bool) (z : Z) : Z := if neg then - z else z.

Fixpoint lex (m : lex_mode) (depth : nat) (s : string) : option (list token) :=
  match s with
  | "" =>
      match m with
      | LDefault | LComment => Some []
      | LName acc => Some [TName acc]
      | LNum neg z => Some [TInt (signed neg z)]
      | LStr _ _ | LEsc _ _ | LMinus => None
      end
  | String c r =>
      let resume (done : list token) :=
        match start_char c depth with
        | Some (ts, m', d') => app (done ++ ts) <$> lex m' d' r
        | None => None
        end in
      match m with
      | LDefault => resume []
      | LComment =>
          if Ascii.eqb c newline then resume [] else lex LComment depth r
      | LStr q acc =>
          if Ascii.eqb c q then cons (TStr acc) <$> lex LDefault depth r
          else if Ascii.eqb c backslash then lex (LEsc q acc) depth r
          else if Ascii.eqb c newline then None
          else lex (LStr q (snoc acc c)) depth r
      | LEsc q acc =>
          match unescape c with
          | Some c' => lex (LStr q (snoc acc c')) depth r
          | None => None
          end
      | LName acc =>
          if is_ident_char c then lex (LName (snoc acc c)) depth r
          else resume [TName acc]
      | LMinus =>
          if is_digit c then lex (LNum true (digit_value c)) depth r else None
      | LNum neg z =>
          if is_digit c then lex (LNum neg (10 * z + digit_value c)) depth r
          else if is_ident_start c then None
          else resume [TInt (signed neg z)]
      end
  end.

(** Literals, by recursive descent; [fuel] bounds the nesting and the
    number of items read. *)
Fixpoint parse_expr (fuel : nat) (ts : list token)
  : option (pyval * list token) :=
  match fuel with
  | O => None
  | S n =>
      match ts with
      | TStr s :: r => Some (VStr s, r)
      | TInt z :: r => Some (VInt z, r)
      | TName x :: r => if String.eqb x "None" then Some (VNone, r) else None
      | TLPar :: TRPar :: r => Some (VTuple [], r)
      | TLPar :: r =>
          match parse_expr n r with
          | Some (v, TRPar :: r') => Some (v, r')
          | Some (v, TComma :: r') =>
              match parse_items n r' with
              | Some (vs, r'') => Some (VTuple (v :: vs), r'')
              | None => None
              end
          | _ => None
          end
      | TLBrace :: r =>
          match parse_entries n r with
          | Some (es, r') => Some (VDict es, r')
          | None => None
          end
      | _ => None
      end
  end
with parse_items (fuel : nat) (ts : list token)
  : option (list pyval * list token) :=
  match fuel with
  | O => None
  | S n =>
      match ts with
      | TRPar :: r => Some ([], r)
      | _ =>
          match parse_expr n ts with
          | Some (v, TRPar :: r) => Some ([v], r)
          | Some (v, TComma :: r) =>
              match parse_items n r with
              | Some (vs, r') => Some (v :: vs, r')
              | None => None
              end
          | _ => None
          end
      end
  end
with parse_entries (fuel : nat) (ts : list token)
  : option (list (pyval * pyval) * list token) :=
  match fuel with
  | O => None
  | S n =>
      match ts with
      | TRBrace :: r => Some ([], r)
      | _ =>
          match parse_expr n ts with
          | Some (k, TColon :: r) =>
              match parse_expr n r with
              | Some (v, TRBrace :: r') => Some ([(k, v)], r')
              | Some (v, TComma :: r') =>
                  match parse_entries n r' with
                  | Some (es, r'') => Some ((k, v) :: es, r'')
                  | None => None
                  end
              | _ => None
              end
          | _ => None
          end
      end
  end.

(** The statements of a module: assignments, one per logical line. *)
Fixpoint parse_module (fuel : nat) (ts : list token)
  : option (list (string * pyval)) :=
  match fuel with
  | O => None
  | S n =>
      match ts with
      | [] => Some []
      | TNewline :: r => parse_module n r
      | TName x :: TEq :: r =>
          match parse_expr n r with
          | Some (v, []) => Some [(x, v)]
          | Some (v, TNewline :: r') => cons (x, v) <$> parse_module n r'
          | _ => None
          end
      | _ => None
      end
  end.

Definition parse (text : string) : option (list (string * pyval)) :=
  lex LDefault O text ≫= fun ts => parse_module (S (List.length ts)) ts.

(** ** The module namespace

    Executing the module binds each name in turn.  A namespace keeps the
    order in which names were first bound, as a Python dict does;
    binding a name again replaces its value where it stands. *)

Fixpoint bind (x : string) (v : pyval) (ns : list (string * pyval))
  : list (string * pyval) :=
  match ns with
  | [] => [(x, v)]
  | (y, w) :: r =>
      if String.eqb x y then (y, v) :: r else (y, w) :: bind x v r
  end.

Fixpoint lookup_name (x : string) (ns : list (string * pyval)) : option pyval :=
  match ns with
  | [] => None
  | (y, w) :: r => if String.eqb x y then Some w else lookup_name x r
  end.

Definition exec (prog : list (string * pyval)) (ns : list (string * pyval))
  : list (string * pyval) :=
  fold_left (fun acc '(x, v) => bind x v acc) prog ns.

(** ** From the namespace to the settings record *)

Definition as_str (v : pyval) : option string :=
  match v with VStr s => Some s | _ => None end.

Definition as_int (v : pyval) : option Z :=
  match v with VInt z => Some z | _ => None end.

Definition as_feed (v : pyval) : option (option string) :=
  match v with
  | VNone => Some None
  | VStr s => Some (Some s)
  | _ => None
  end.

Definition as_pair (v : pyval) : option (string * string) :=
  match v with
  | VTuple [VStr a; VStr b] => Some (a, b)
  | _ => None
  end.

Definition as_pattern (v : pyval) : option (Z * string * string) :=
  match v with
  | VTuple [VInt n; VStr a; VStr b] => Some (n, a, b)
  | _ => None
  end.

Definition as_tuple_of {A : Type} (f : pyval -> option A) (v : pyval)
  : option (list A) :=
  match v with
  | VTuple items => mapM f items
  | _ => None
  end.

(** The value under string key [k] of a dict display; of two entries
    with the same key the later one counts. *)
Fixpoint dict_get (k : string) (es : list (pyval * pyval)) : option pyval :=
  match es with
  | [] => None
  | (k', v) :: r =>
      match dict_get k r with
      | Some w => Some w
      | None =>
          match k' with
          | VStr s => if String.eqb k s then Some v else None
          | _ => None
          end
      end
  end.

Definition as_author_meta (v : pyval) : option author_meta :=
  match v with
  | VDict es =>
      n ← dict_get "name" es ≫= as_str;
      i ← dict_get "image" es ≫= as_str;
      l ← dict_get "linkedin" es ≫= as_str;
      b ← dict_get "bio" es ≫= as_str;
      Some {| name := n; image := i; linkedin := l; bio := b |}
  | _ => None
  end.

Fixpoint as_meta_entries (es : list (pyval * pyval)) (m : gmap string author_meta)
  : option (gmap string author_meta) :=
  match es with
  | [] => Some m
  | (VStr k, v) :: r =>
      a ← as_author_meta v; as_meta_entries r (<[k := a]> m)
  | _ => None
  end.

Definition as_meta_map (v : pyval) : option (gmap string author_meta) :=
  match v with
  | VDict es => as_meta_entries es ∅
  | _ => None
  end.

Definition get {A : Type} (ns : list (string * pyval)) (x : string)
  (f : pyval -> option A) : option A :=
  lookup_name x ns ≫= f.

(** Every setting of the record must be bound, with a value of the
    expected shape; other names are ignored. *)
Definition of_namespace (ns : list (string * pyval)) : option Settings :=
  a1 ← get ns "AUTHOR" as_str;
  a2 ← get ns "SITENAME" as_str;
  a3 ← get ns "SITEURL" as_str;
  a4 ← get ns "THEME" as_str;
  a5 ← get ns "PATH" as_str;
  a6 ← get ns "TIMEZONE" as_str;
  a7 ← get ns "DEFAULT_LANG" as_str;
  f1 ← get ns "FEED_ALL_ATOM" as_feed;
  f2 ← get ns "CATEGORY_FEED_ATOM" as_feed;
  f3 ← get ns "TRANSLATION_FEED_ATOM" as_feed;
  f4 ← get ns "AUTHOR_FEED_ATOM" as_feed;
  f5 ← get ns "AUTHOR_FEED_RSS" as_feed;
  m1 ← get ns "MENUITEMS" (as_tuple_of as_pair);
  m2 ← get ns "LINKS" (as_tuple_of as_pair);
  m3 ← get ns "SOCIAL" (as_tuple_of as_pair);
  p1 ← get ns "DEFAULT_PAGINATION" as_int;
  p2 ← get ns "PAGINATION_PATTERNS" (as_tuple_of as_pattern);
  u1 ← get ns "ARTICLE_URL" as_str;
  u2 ← get ns "ARTICLE_SAVE_AS" as_str;
  u3 ← get ns "PAGE_URL" as_str;
  u4 ← get ns "PAGE_SAVE_AS" as_str;
  u5 ← get ns "YEAR_ARCHIVE_SAVE_AS" as_str;
  u6 ← get ns "MONTH_ARCHIVE_SAVE_AS" as_str;
  c1 ← get ns "CATEGORY_URL" as_str;
  c2 ← get ns "CATEGORY_SAVE_AS" as_str;
  c3 ← get ns "CATEGORIES_SAVE_AS" as_str;
  t1 ← get ns "TAG_URL" as_str;
  t2 ← get ns "TAG_SAVE_AS" as_str;
  t3 ← get ns "TAGS_SAVE_AS" as_str;
  w1 ← get ns "AUTHOR_URL" as_str;
  w2 ← get ns "AUTHOR_SAVE_AS" as_str;
  w3 ← get ns "AUTHORS_SAVE_AS" as_str;
  am ← get ns "AUTHOR_META" as_meta_map;
  hc ← get ns "HOME_COVER" as_str;
  Some (MkSettings a1 a2 a3 a4 a5 a6 a7 f1 f2 f3 f4 f5 m1 m2 m3 p1 p2
          u1 u2 u3 u4 u5 u6 c1 c2 c3 t1 t2 t3 w1 w2 w3 am hc).

(** Running the text of a module in a namespace: every statement is
    read before the first is executed, so text outside the supported
    part of Python leaves no namespace at all. *)
Definition run (text : string) (ns : list (string * pyval))
  : option (list (string * pyval)) :=
  (fun prog => exec prog ns) <$> parse text.

(** Loading: run the text in an empty namespace and take the settings.
    Malformed text, a missing setting or a value of the wrong shape
    fails the whole load. *)
Definition load (text : string) : option Settings :=
  run text [] ≫= of_namespace.

(** ** From the settings record to text *)

Definition of_feed (f : option string) : pyval :=
  match f with None => VNone | Some s => VStr s end.

Definition of_pair (p : string * string) : pyval :=
  VTuple [VStr (fst p); VStr (snd p)].

Definition of_pattern (p : Z * string * string) : pyval :=
  VTuple [VInt (fst (fst p)); VStr (snd (fst p)); VStr (snd p)].

Definition of_author_meta (a : author_meta) : pyval :=
  VDict [ (VStr "name", VStr (name a)); (VStr "image", VStr (image a));
          (VStr "linkedin", VStr (linkedin a)); (VStr "bio", VStr (bio a)) ].

Definition of_meta_map (m : gmap string author_meta) : pyval :=
  VDict (map (fun '(k, a) => (VStr k, of_author_meta a)) (map_to_list m)).

Definition to_namespace (c : Settings) : list (string * pyval) :=
  [ ("AUTHOR", VStr (AUTHOR c));
    ("SITENAME", VStr (SITENAME c));
    ("SITEURL", VStr (SITEURL c));
    ("THEME", VStr (THEME c));
    ("PATH", VStr (PATH c));
    ("TIMEZONE", VStr (TIMEZONE c));
    ("DEFAULT_LANG", VStr (DEFAULT_LANG c));
    ("FEED_ALL_ATOM", of_feed (FEED_ALL_ATOM c));
    ("CATEGORY_FEED_ATOM", of_feed (CATEGORY_FEED_ATOM c));
    ("TRANSLATION_FEED_ATOM", of_feed (TRANSLATION_FEED_ATOM c));
    ("AUTHOR_FEED_ATOM", of_feed (AUTHOR_FEED_ATOM c));
    ("AUTHOR_FEED_RSS", of_feed (AUTHOR_FEED_RSS c));
    ("MENUITEMS", VTuple (map of_pair (MENUITEMS c)));
    ("LINKS", VTuple (map of_pair (LINKS c)));
    ("SOCIAL", VTuple (map of_pair (SOCIAL c)));
    ("DEFAULT_PAGINATION", VInt (DEFAULT_PAGINATION c));
    ("PAGINATION_PATTERNS", VTuple (map of_pattern (PAGINATION_PATTERNS c)));
    ("ARTICLE_URL", VStr (ARTICLE_URL c));
    ("ARTICLE_SAVE_AS", VStr (ARTICLE_SAVE_AS c));
    ("PAGE_URL", VStr (PAGE_URL c));
    ("PAGE_SAVE_AS", VStr (PAGE_SAVE_AS c));
    ("YEAR_ARCHIVE_SAVE_AS", VStr (YEAR_ARCHIVE_SAVE_AS c));
    ("MONTH_ARCHIVE_SAVE_AS", VStr (MONTH_ARCHIVE_SAVE_AS c));
    ("CATEGORY_URL", VStr (CATEGORY_URL c));
    ("CATEGORY_SAVE_AS", VStr (CATEGORY_SAVE_AS c));
    ("CATEGORIES_SAVE_AS", VStr (CATEGORIES_SAVE_AS c));
    ("TAG_URL", VStr (TAG_URL c));
    ("TAG_SAVE_AS", VStr (TAG_SAVE_AS c));
    ("TAGS_SAVE_AS", VStr (TAGS_SAVE_AS c));
    ("AUTHOR_URL", VStr (AUTHOR_URL c));
    ("AUTHOR_SAVE_AS", VStr (AUTHOR_SAVE_AS c));
    ("AUTHORS_SAVE_AS", VStr (AUTHORS_SAVE_AS c));
    ("AUTHOR_META", of_meta_map (AUTHOR_META c));
    ("HOME_COVER", VStr (HOME_COVER c)) ].

Definition dump (ns : list (string * pyval)) : string :=
  fold_right (fun '(x, v) rest => x +:+ " = " +:+ repr v +:+ String newline rest)
    "" ns.

(** Modelled from the spec: the repository has no serializer; the spec
    gives the file format, one assignment [name = literal value] per
    setting in the host language's syntax.  [serialize] writes that
    file, each value by [repr]. *)
Definition serialize (c : Settings) : string := dump (to_namespace c).

(** ** The text of [pelicanconf.py] *)

Definition dq (s : string) : string := String dquote s +:+ String dquote "".

Definition pelicanconf_py : string :=
  join (String newline "") [
    "#!/usr/bin/env python";
    "# -*- coding: utf-8 -*- #";
    "";
    "AUTHOR = 'Adriana Vasiu'";
    "SITENAME = ''";
    "SITEURL = ''";
    "";
    "THEME = 'themes/attila'";
    "PATH = 'content'";
    "";
    "TIMEZONE = 'Europe/London'";
    "";
    "DEFAULT_LANG = 'en'";
    "";
    "# Feed generation is usually not desired when developing";
    "FEED_ALL_ATOM = None";
    "CATEGORY_FEED_ATOM = None";
    "TRANSLATION_FEED_ATOM = None";
    "AUTHOR_FEED_ATOM = None";
    "AUTHOR_FEED_RSS = None";
    "";
    "MENUITEMS = (('Home', '/'),";
    "             ('Author', '/author/adriana-vasiu/'),";
    "             ('Testing', '/category/testing/'),";
    "             ('Development', '/category/development/'),";
    "             ('Instrumentation', '/category/instrumentation/'),";
    "             ('Automation', '/category/automation/'),";
    "             ('Ways of Working', '/category/ways-of-working/'),)";
    "";
    "# Blogroll";
    "LINKS = ()";
    "";
    "# Social widget";
    "SOCIAL = (('You can add links in your config file', '#'),";
    "          ('Another social link', '#'),)";
    "";
    "# Pagination";
    "DEFAULT_PAGINATION = 3";
    "PAGINATION_PATTERNS = (";
    "    (1, '{base_name}/', '{base_name}/index.html'),";
    "    (2, '{base_name}/page/{number}/', '{base_name}/page/{number}/index.html'),";
    ")";
    "";
    "# Uncomment following line if you want document-relative URLs when developing";
    "#RELATIVE_URLS = True";
    "";
    "# Post and Pages path";
    "ARTICLE_URL = '{date:%Y}/{date:%m}/{slug}.html'";
    "ARTICLE_SAVE_AS = '{date:%Y}/{date:%m}/{slug}.html'";
    "PAGE_URL = 'pages/{slug}/'";
    "PAGE_SAVE_AS = 'pages/{slug}/index.html'";
    "YEAR_ARCHIVE_SAVE_AS = '{date:%Y}/index.html'";
    "MONTH_ARCHIVE_SAVE_AS = '{date:%Y}/{date:%m}/index.html'";
    "";
    "# Tags and Category path";
    "CATEGORY_URL = 'category/{slug}'";
    "CATEGORY_SAVE_AS = 'category/{slug}/index.html'";
    "CATEGORIES_SAVE_AS = 'catgegories.html'";
    "TAG_URL = 'tag/{slug}'";
    "TAG_SAVE_AS = 'tag/{slug}/index.html'";
    "TAGS_SAVE_AS = 'tags.html'";
    "";
    "# Author";
    "AUTHOR_URL = 'author/{slug}'";
    "AUTHOR_SAVE_AS = 'author/{slug}/index.html'";
    "AUTHORS_SAVE_AS = 'authors.html'";
    "";
    "AUTHOR_META = {";
    "  " +:+ dq "adriana vasiu" +:+ ": {";
    "    " +:+ dq "name" +:+ ": " +:+ dq "Adriana Vasiu" +:+ ",";
    "    " +:+ dq "image" +:+ ": " +:+ dq "images/mooseberry_tech-512x512-NO-TEXT.png" +:+ ",";
    "    " +:+ dq "linkedin" +:+ ": " +:+ dq "adrianavasiu" +:+ ",";
    "    " +:+ dq "bio" +:+ ": " +:+ dq "I currently work as a consultant on software development.";
    "  }";
    "}";
    "";
    "HOME_COVER = 'images/mooseberry_tech-BACKGOURND.jpg'" ].

(** The same file with the author left empty: the 24 characters of the
    literal assignment on line 4, which start at offset 49, give way to
    an assignment of the empty string. *)
Definition anonymous_py : string :=
  substring 0 49 pelicanconf_py +:+ "AUTHOR = ''"
  +:+ substring 73 2033 pelicanconf_py.

(** ** Tokens of a value

    What the reader must find in the text [repr] writes: the tokens of a
    value, and the predicates the round-trip proof is stated with. *)

Fixpoint sep_tokens (l : list (list token)) : list token :=
  match l with
  | [] => []
  | x :: r => match r with [] => x | _ => x ++ TComma :: sep_tokens r end
  end.

Fixpoint tokens (v : pyval) : list token :=
  match v with
  | VNone => [TName "None"]
  | VInt z => [TInt z]
  | VStr s => [TStr s]
  | VTuple items =>
      match items with
      | [] => [TLPar; TRPar]
      | [x] => TLPar :: tokens x ++ [TComma; TRPar]
      | _ => TLPar :: sep_tokens (map tokens items) ++ [TRPar]
      end
  | VDict entries =>
      TLBrace
      :: sep_tokens (map (fun '(k, x) => tokens k ++ TColon :: tokens x) entries)
      ++ [TRBrace]
  end.

Definition entry_tokens (e : pyval * pyval) : list token :=
  let '(k, x) := e in tokens k ++ TColon :: tokens x.

Definition statement_tokens (s : string * pyval) : list token :=
  TName (fst s) :: TEq :: tokens (snd s) ++ [TNewline].

(** A name the reader takes as one [TName]: a letter or underscore, then
    letters, digits and underscores. *)
Definition is_identifier (x : string) : bool :=
  match x with
  | "" => false
  | String c r => is_ident_start c && forallb is_ident_char (list_ascii_of_string r)
  end.

(** Text that ends a name or a number standing before it. *)
Definition delimiter (rest : string) : Prop :=
  match rest with
  | "" => True
  | String c _ => is_ident_char c = false
  end.

(** Before any delimiter, at any bracket depth, the text [s] is read as
    the tokens [ts]. *)
Definition lexes (s : string) (ts : list token) : Prop :=
  forall d rest, delimiter rest ->
    lex LDefault d (s +:+ rest) = app ts <$> lex LDefault d rest.

(** Punctuation is read whatever follows it, and is a delimiter. *)
Definition punct (s : string) (ts : list token) : Prop :=
  (forall d rest, lex LDefault d (s +:+ rest) = app ts <$> lex LDefault d rest)
  /\ forall rest, delimiter (s +:+ rest).

(** Tokens that start with neither closing bracket. *)
Definition opens (ts : list token) : Prop :=
  match ts with
  | [] => False
  | TRPar :: _ | TRBrace :: _ => False
  | _ => True
  end.

(** With fuel for each of its tokens, the value is parsed back, and the
    tokens after it are left. *)
Definition parses (v : pyval) : Prop :=
  forall fuel r, (List.length (tokens v) <= fuel)%nat ->
    parse_expr fuel (tokens v ++ r) = Some (v, r).

(** Induction on values, with the hypothesis for every item of a tuple
    and every key and value of a dict. *)
Section pyval_nested_ind.
Variable P : pyval -> Prop.
Hypothesis HNone : P VNone.
Hypothesis HInt : forall z, P (VInt z).
Hypothesis HStr : forall s, P (VStr s).
Hypothesis HTuple : forall items, Forall P items -> P (VTuple items).
Hypothesis HDict :
  forall entries, Forall (fun e => P (fst e) /\ P (snd e)) entries ->
                  P (VDict entries).

Fixpoint pyval_nested_ind (v : pyval) : P v :=
  match v with
  | VNone => HNone
  | VInt z => HInt z
  | VStr s => HStr s
  | VTuple items =>
      HTuple items
        ((fix go (l : list pyval) : Forall P l :=
            match l with
            | [] => @List.Forall_nil _ P
            | x :: r => @List.Forall_cons _ P x r (pyval_nested_ind x) (go r)
            end) items)
  | VDict entries =>
      HDict entries
        ((fix go (l : list (pyval * pyval))
            : Forall (fun e => P (fst e) /\ P (snd e)) l :=
            match l with
            | [] => @List.Forall_nil _ _
            | (k, x) :: r =>
                @List.Forall_cons _ _ (k, x) r
                  (conj (pyval_nested_ind k) (pyval_nested_ind x)) (go r)
            end) entries)
  end.
End pyval_nested_ind.

(** ** Output paths

    What the engine supplies to the templates of the other kinds of
    content: a slug to pages, categories, tags and authors; the date to
    the period archives; the base name and the page number to paginated
    listings. *)

Definition slug_fields (slug f spec : string) : option string :=
  if String.eqb f "slug" && String.eqb spec "" then Some slug else None.

Definition date_fields (year month : string) (f spec : string) : option string :=
  if String.eqb f "date" then
    if String.eqb spec "%Y" then Some year
    else if String.eqb spec "%m" then Some month
    else None
  else None.

Definition page_fields (base_name : string) (number : Z) (f spec : string)
  : option string :=
  if String.eqb spec "" then
    if String.eqb f "base_name" then Some base_name
    else if String.eqb f "number" then Some (pretty number)
    else None
  else None.

(** The save paths that are expanded with one slug: category, tag,
    author and page. *)
Definition slug_save_paths (c : Settings) : list string :=
  [ CATEGORY_SAVE_AS c; TAG_SAVE_AS c; AUTHOR_SAVE_AS c; PAGE_SAVE_AS c ].

(** A name the engine takes as a setting: upper-case letters and
    underscores. *)
Definition is_setting_name (x : string) : bool :=
  negb (String.eqb x "")
  && forallb (fun c => is_upper c || Ascii.eqb c "_") (list_ascii_of_string x).

(** * Properties *)

(** ** Sanity checks of the definitions *)

Example ascending_12 : ascending [1; 2] = true.
Proof. reflexivity. Qed.

Example ascending_22 : ascending [2; 2] = false.
Proof. reflexivity. Qed.

Example placeholders_article :
  placeholders "{date:%Y}/{date:%m}/{slug}.html" = Some ["date"; "date"; "slug"].
Proof. reflexivity. Qed.

Example placeholders_escaped : placeholders "{{a}}{b}" = Some ["b"].
Proof. reflexivity. Qed.

Example placeholders_lone_brace : placeholders "a}b" = None.
Proof. reflexivity. Qed.

Example format_article :
  format (article_fields "2019" "03" "first-post")
    "{date:%Y}/{date:%m}/{slug}.html"
  = Some "2019/03/first-post.html".
Proof. reflexivity. Qed.

Example format_missing_field :
  format (article_fields "2019" "03" "first-post") "{base_name}/" = None.
Proof. reflexivity. Qed.

Example normalize_display_name :
  normalize key_separator "Adriana Vasiu" = "adriana vasiu".
Proof. reflexivity. Qed.

Example normalize_tab :
  normalize slug_separator (String "A" (String tab "B")) = "a-b".
Proof. reflexivity. Qed.

Example relative_root : is_relative "/category/testing/" = true.
Proof. reflexivity. Qed.

Example relative_anchor : is_relative "#" = true.
Proof. reflexivity. Qed.

Example absolute_url : is_relative "https://example.org/a" = false.
Proof. reflexivity. Qed.

Example host_url : is_relative "//example.org/a" = false.
Proof. reflexivity. Qed.

Example repr_values :
  repr (VTuple [VStr "a'b"; VInt (-12); VNone; VTuple [VInt 3];
                VDict [(VStr "k", VTuple [])]])
  = "(" +:+ dq "a'b" +:+ ", -12, None, (3,), {'k': ()})".
Proof. reflexivity. Qed.

Example parse_two_lines :
  parse ("X = ('a', -3, None," +:+ String newline ""
         +:+ "  ('b',), {'k': ()},)  # note" +:+ String newline ""
         +:+ "Y = 4")
  = Some [ ("X", VTuple [VStr "a"; VInt (-3); VNone; VTuple [VStr "b"];
                         VDict [(VStr "k", VTuple [])]]);
           ("Y", VInt 4) ].
Proof. reflexivity. Qed.

(** Malformed text fails the whole load. *)
Example load_unclosed_string : load "AUTHOR = 'Adriana Vasiu" = None.
Proof. reflexivity. Qed.

Example load_unclosed_tuple : load "LINKS = (" = None.
Proof. reflexivity. Qed.

(** So does a module that leaves a setting out. *)
Example load_one_setting : load "AUTHOR = 'Adriana Vasiu'" = None.
Proof. reflexivity. Qed.

Example bind_keeps_place :
  exec [("A", VInt 1); ("B", VInt 2); ("A", VInt 3)] []
  = [("A", VInt 3); ("B", VInt 2)].
Proof. reflexivity. Qed.

(** The text has the length of the file, 2106 bytes. *)
Example pelicanconf_py_length : String.length pelicanconf_py = 2106%nat.
Proof. vm_compute. reflexivity. Qed.

(** ** The module loads to [pelicanconf] *)

(** Reading the text of the file gives the record transcribed above. *)
Lemma load_pelicanconf_py : load pelicanconf_py = Some pelicanconf.
Proof. vm_compute. reflexivity. Qed.

(** ** Identity and scenario *)

(** C1: loading the configuration yields the author "Adriana Vasiu", a
    default pagination of 3, seven menu items of which ("Home", "/") is
    the first, and author metadata with the single key "adriana vasiu",
    whose name is "Adriana Vasiu". *)
Theorem loaded_record_scenario :
  exists c,
    load pelicanconf_py = Some c /\
    AUTHOR c = "Adriana Vasiu" /\
    DEFAULT_PAGINATION c = 3 /\
    List.length (MENUITEMS c) = 7%nat /\
    head (MENUITEMS c) = Some ("Home", "/") /\
    dom (AUTHOR_META c) = {[ "adriana vasiu" ]} /\
    size (AUTHOR_META c) = 1%nat /\
    name <$> AUTHOR_META c !! "adriana vasiu" = Some "Adriana Vasiu".
Proof.
  exists pelicanconf. split; [exact load_pelicanconf_py |].
  split; [reflexivity |]. split; [reflexivity |].
  split; [reflexivity |]. split; [reflexivity |].
  cbn [AUTHOR_META pelicanconf].
  split; [apply dom_singleton_L |].
  split; [apply map_size_singleton |].
  rewrite lookup_singleton_eq. reflexivity.
Qed.

Example anonymous_py_line :
  substring 49 24 pelicanconf_py = "AUTHOR = 'Adriana Vasiu'"
  /\ substring 49 11 anonymous_py = "AUTHOR = ''"
  /\ String.length anonymous_py = 2093%nat.
Proof. vm_compute. repeat split. Qed.



(** ** Pagination *)

Lemma ascending_sorted (l : list Z) :
  ascending l = true -> StronglySorted Z.lt l.
Proof.
  induction l as [| x r IH]; intros H.
  - constructor.
  - assert (Hr : ascending r = true /\ Forall (Z.lt x) r).
    { destruct r as [| y r'].
      - split; [reflexivity | constructor].
      - cbn in H. apply andb_true_iff in H as [Hxy Hr].
        apply Z.ltb_lt in Hxy. split; [exact Hr |].
        specialize (IH Hr). inversion IH as [| ? ? _ Hall]; subst.
        constructor; [exact Hxy |].
        eapply Forall_impl; [exact Hall |].
        intros z Hz. cbn in Hz. lia. }
    destruct Hr as [Hr Hall]. constructor; [apply IH, Hr | exact Hall].
Qed.

(** C2: the default page size is positive, every pattern's threshold is
    positive, and the thresholds are strictly ascending in file order. *)
Theorem pagination_invariant :
  0 < DEFAULT_PAGINATION pelicanconf /\
  Forall (fun t => 0 < t) (thresholds pelicanconf) /\
  ascending (thresholds pelicanconf) = true /\
  StronglySorted Z.lt (thresholds pelicanconf).
Proof.
  split; [reflexivity |].
  split; [repeat constructor |].
  split; [reflexivity |].
  apply ascending_sorted. reflexivity.
Qed.

(** ** Feeds *)

(** C6: each of the five feed settings is [None], which the engine reads
    as "feed disabled". *)
Theorem feeds_disabled :
  Forall (fun f => f = None /\ feed_enabled f = false)
    (feed_settings pelicanconf).
Proof. repeat constructor. Qed.

(** ** Menu *)

(** C8: every menu item pairs a label with a path that has neither a
    scheme nor a host, and the labels come in the order of the file:
    Home, Author, Testing, Development, Instrumentation, Automation,
    Ways of Working. *)
Theorem menu_paths_relative :
  Forall (fun item => is_relative (snd item) = true) (MENUITEMS pelicanconf) /\
  display_order pelicanconf
  = [ "Home"; "Author"; "Testing"; "Development"; "Instrumentation";
      "Automation"; "Ways of Working" ].
Proof. split; [repeat constructor | reflexivity]. Qed.

(** ** Templates *)

Lemma placeholders_by_setting :
  map placeholders (templates pelicanconf)
  = [ Some ["date"; "date"; "slug"]; Some ["date"; "date"; "slug"];
      Some ["slug"]; Some ["slug"];
      Some ["date"]; Some ["date"; "date"];
      Some ["slug"]; Some ["slug"]; Some [];
      Some ["slug"]; Some ["slug"]; Some [];
      Some ["slug"]; Some ["slug"]; Some [];
      Some ["base_name"]; Some ["base_name"];
      Some ["base_name"; "number"]; Some ["base_name"; "number"] ].
Proof. reflexivity. Qed.

(** C4: every template of the configuration is a well-formed format
    string, and each of its placeholder tokens is one of date, slug,
    number and base_name. *)
Theorem template_placeholders_valid :
  Forall (fun t =>
            exists ps, placeholders t = Some ps /\
                       Forall (fun p => In p engine_tokens) ps)
    (templates pelicanconf).
Proof.
  repeat (apply List.Forall_cons;
          [eexists; split; [reflexivity |];
           repeat (apply List.Forall_cons; [cbn; tauto |]);
           apply List.Forall_nil |]).
  apply List.Forall_nil.
Qed.

(** C9: the article URL template and the article save-path template are
    the same string, so whatever the engine supplies for date and slug,
    an article is written to the path it is served from. *)
Theorem article_url_is_save_path :
  ARTICLE_URL pelicanconf = "{date:%Y}/{date:%m}/{slug}.html" /\
  ARTICLE_SAVE_AS pelicanconf = "{date:%Y}/{date:%m}/{slug}.html" /\
  ARTICLE_URL pelicanconf = ARTICLE_SAVE_AS pelicanconf /\
  (forall lookup,
      format lookup (ARTICLE_URL pelicanconf)
      = format lookup (ARTICLE_SAVE_AS pelicanconf)) /\
  (forall year month slug,
      format (article_fields year month slug) (ARTICLE_URL pelicanconf)
      = Some (year +:+ "/" +:+ month +:+ "/" +:+ slug +:+ ".html") /\
      format (article_fields year month slug) (ARTICLE_SAVE_AS pelicanconf)
      = Some (year +:+ "/" +:+ month +:+ "/" +:+ slug +:+ ".html")).
Proof. repeat split; reflexivity. Qed.

(** C10: the save paths of the three overview pages hold no placeholder
    (no brace at all, so they expand to themselves), and the one for the
    categories page is the misspelt "catgegories.html". *)
Theorem overview_save_paths_constant :
  Forall (fun t =>
            placeholders t = Some [] /\
            has_char "{" t = false /\ has_char "}" t = false /\
            forall lookup, format lookup t = Some t)
    (overview_save_paths pelicanconf) /\
  CATEGORIES_SAVE_AS pelicanconf = "catgegories.html" /\
  CATEGORIES_SAVE_AS pelicanconf <> "categories.html".
Proof.
  split; [| split; [reflexivity | discriminate]].
  repeat (apply List.Forall_cons; [repeat split; reflexivity |]).
  apply List.Forall_nil.
Qed.

(** ** Author keys *)

(** C3: every key of the author metadata is its entry's display name in
    lower case with each whitespace character written as the key's
    separator, a space; the key has no upper-case letter, and with the
    separator written as a hyphen it is the slug of the name, under
    which the menu links to the author's page. *)
Theorem author_key_normalization (k : string) (a : author_meta) :
  AUTHOR_META pelicanconf !! k = Some a ->
  k = normalize key_separator (name a) /\
  is_lowercase k = true /\
  replace_char key_separator slug_separator k
  = normalize slug_separator (name a) /\
  In ("Author", "/author/" +:+ replace_char key_separator slug_separator k +:+ "/")
    (MENUITEMS pelicanconf).
Proof.
  cbn [AUTHOR_META pelicanconf]. intros H.
  apply lookup_singleton_Some in H as [<- <-].
  repeat split; try reflexivity.
  cbn. tauto.
Qed.

Lemma author_key_normalization_witness :
  let a := {| name := "Adriana Vasiu";
              image := "images/mooseberry_tech-512x512-NO-TEXT.png";
              linkedin := "adrianavasiu";
              bio := "I currently work as a consultant on software development." |} in
  AUTHOR_META pelicanconf !! "adriana vasiu" = Some a /\
  "adriana vasiu" = normalize key_separator (name a) /\
  is_lowercase "adriana vasiu" = true /\
  "adriana-vasiu" = normalize slug_separator (name a) /\
  In ("Author", "/author/adriana-vasiu/") (MENUITEMS pelicanconf).
Proof.
  assert (H : AUTHOR_META pelicanconf !! "adriana vasiu"
              = Some {| name := "Adriana Vasiu";
                        image := "images/mooseberry_tech-512x512-NO-TEXT.png";
                        linkedin := "adrianavasiu";
                        bio := "I currently work as a consultant on software development." |})
    by (vm_compute; reflexivity).
  split; [exact H |].
  exact (author_key_normalization "adriana vasiu" _ H).
Defined.

(** ** The namespace *)

Lemma lookup_bind (x y : string) (v : pyval) (ns : list (string * pyval)) :
  lookup_name y (bind x v ns)
  = if String.eqb y x then Some v else lookup_name y ns.
Proof.
  induction ns as [| [z w] r IH]; cbn.
  - reflexivity.
  - destruct (String.eqb_spec x z) as [-> | Hxz]; cbn.
    + destruct (String.eqb y z); reflexivity.
    + destruct (String.eqb_spec y z) as [-> | Hyz].
      * destruct (String.eqb_spec z x) as [-> | _]; [contradiction | reflexivity].
      * exact IH.
Qed.

(** Binding a name again keeps only the later value. *)
Lemma bind_bind (x : string) (v w : pyval) (ns : list (string * pyval)) :
  bind x v (bind x w ns) = bind x v ns.
Proof.
  induction ns as [| [z u] r IH]; cbn.
  - rewrite String.eqb_refl. reflexivity.
  - destruct (String.eqb_spec x z) as [-> | Hxz]; cbn.
    + rewrite String.eqb_refl. reflexivity.
    + destruct (String.eqb_spec x z); [contradiction |]. rewrite IH. reflexivity.
Qed.

(** Bindings of two names commute once the second name is bound. *)
Lemma bind_comm (x y : string) (v w : pyval) (ns : list (string * pyval)) :
  x <> y -> is_Some (lookup_name y ns) ->
  bind y w (bind x v ns) = bind x v (bind y w ns).
Proof.
  intros Hxy. induction ns as [| [z u] r IH]; cbn; intros Hy.
  - destruct Hy as [? Hy]; discriminate.
  - destruct (String.eqb_spec x z) as [-> | Hxz];
      destruct (String.eqb_spec y z) as [-> | Hyz]; cbn.
    + contradiction.
    + rewrite String.eqb_refl.
      destruct (String.eqb_spec y z); [contradiction | reflexivity].
    + rewrite String.eqb_refl.
      destruct (String.eqb_spec x z); [contradiction | reflexivity].
    + destruct (String.eqb_spec x z); [contradiction |].
      destruct (String.eqb_spec y z); [contradiction |].
      rewrite IH; [reflexivity | exact Hy].
Qed.

Lemma exec_snoc (p : list (string * pyval)) (x : string) (v : pyval)
  (ns : list (string * pyval)) :
  exec (p ++ [(x, v)]) ns = bind x v (exec p ns).
Proof. unfold exec. rewrite fold_left_app. reflexivity. Qed.

Lemma bound_bind (x y : string) (v : pyval) (ns : list (string * pyval)) :
  is_Some (lookup_name y ns) -> is_Some (lookup_name y (bind x v ns)).
Proof.
  intros H. rewrite lookup_bind. destruct (String.eqb y x); [eexists; reflexivity | exact H].
Qed.

Lemma bound_exec (p : list (string * pyval)) (y : string)
  (ns : list (string * pyval)) :
  is_Some (lookup_name y ns) -> is_Some (lookup_name y (exec p ns)).
Proof.
  revert ns. induction p as [| [x v] p IH]; intros ns H; cbn.
  - exact H.
  - apply IH, bound_bind, H.
Qed.

(** Every name a module assigns is bound when it has run. *)
Lemma assigned_bound (p : list (string * pyval)) (ns : list (string * pyval)) :
  Forall (fun s => is_Some (lookup_name (fst s) (exec p ns))) p.
Proof.
  revert ns. induction p as [| [x v] p IH]; intros ns.
  - apply List.Forall_nil.
  - apply List.Forall_cons.
    + cbn. apply bound_exec. rewrite lookup_bind, String.eqb_refl.
      eexists; reflexivity.
    + apply IH.
Qed.

(** Where every name of [p] is already bound, a binding made before [p]
    runs and made again after it could as well be made after it only. *)
Lemma bind_exec_bind (p : list (string * pyval)) (x : string) (v : pyval)
  (ns : list (string * pyval)) :
  Forall (fun s => is_Some (lookup_name (fst s) ns)) p ->
  bind x v (exec p (bind x v ns)) = bind x v (exec p ns).
Proof.
  revert ns. induction p as [| [y w] p IH]; intros ns Hp; cbn.
  - apply bind_bind.
  - apply Forall_cons in Hp as [Hy Hp]. cbn in Hy.
    destruct (String.eqb_spec x y) as [-> | Hxy].
    + rewrite bind_bind. reflexivity.
    + rewrite bind_comm by assumption.
      apply IH. eapply Forall_impl; [exact Hp |].
      intros s Hs. apply bound_bind, Hs.
Qed.

(** Running a module again in the namespace it left changes nothing:
    neither a value nor the order of the names. *)
Lemma exec_idempotent (p : list (string * pyval)) (ns : list (string * pyval)) :
  exec p (exec p ns) = exec p ns.
Proof.
  induction p as [| [x v] p IH] using rev_ind.
  - reflexivity.
  - rewrite !exec_snoc. rewrite bind_exec_bind.
    + rewrite IH. reflexivity.
    + apply assigned_bound.
Qed.

Lemma run_idempotent (text : string) (ns ns' : list (string * pyval)) :
  run text ns = Some ns' -> run text ns' = Some ns'.
Proof.
  unfold run. destruct (parse text) as [p |]; cbn; [| discriminate].
  intros [= <-]. rewrite exec_idempotent. reflexivity.
Qed.

(** ** From the record to the namespace and back *)

Lemma as_pairs_of (l : list (string * string)) :
  as_tuple_of as_pair (VTuple (map of_pair l)) = Some l.
Proof.
  cbn. induction l as [| [a b] l IH]; cbn.
  - reflexivity.
  - cbn in IH. rewrite IH. reflexivity.
Qed.

Lemma as_patterns_of (l : list (Z * string * string)) :
  as_tuple_of as_pattern (VTuple (map of_pattern l)) = Some l.
Proof.
  cbn. induction l as [| [[n a] b] l IH]; cbn.
  - reflexivity.
  - cbn in IH. rewrite IH. reflexivity.
Qed.

Lemma as_feed_of (f : option string) : as_feed (of_feed f) = Some f.
Proof. destruct f; reflexivity. Qed.

Lemma as_author_meta_of (a : author_meta) :
  as_author_meta (of_author_meta a) = Some a.
Proof. destruct a; reflexivity. Qed.

Lemma as_meta_entries_of (l : list (string * author_meta))
  (m : gmap string author_meta) :
  as_meta_entries (map (fun '(k, a) => (VStr k, of_author_meta a)) l) m
  = Some (foldr (fun s acc => <[fst s := snd s]> acc) m (reverse l)).
Proof.
  revert m. induction l as [| [k a] l IH]; intros m.
  - reflexivity.
  - cbn [map as_meta_entries]. rewrite as_author_meta_of. cbn [mbind option_bind].
    rewrite IH, reverse_cons, foldr_app. reflexivity.
Qed.

Lemma as_meta_map_of (m : gmap string author_meta) :
  as_meta_map (of_meta_map m) = Some m.
Proof.
  unfold as_meta_map, of_meta_map. rewrite as_meta_entries_of. f_equal.
  rewrite <- (list_to_map_to_list m) at 2.
  change (foldr _ ∅ (reverse (map_to_list m)))
    with (list_to_map (M := gmap string author_meta) (reverse (map_to_list m))).
  apply list_to_map_proper.
  - rewrite fmap_reverse, reverse_Permutation. apply NoDup_fst_map_to_list.
  - apply reverse_Permutation.
Qed.

(** The names of [to_namespace] are distinct: executing the assignments
    binds each once, in order. *)
Lemma exec_to_namespace (c : Settings) :
  exec (to_namespace c) [] = to_namespace c.
Proof. reflexivity. Qed.

Lemma of_to_namespace (c : Settings) :
  of_namespace (to_namespace c) = Some c.
Proof.
  destruct c. unfold of_namespace, get, to_namespace.
  cbn [lookup_name String.eqb Ascii.eqb Bool.eqb mbind option_bind
       as_str as_int AUTHOR SITENAME SITEURL THEME PATH TIMEZONE DEFAULT_LANG
       FEED_ALL_ATOM CATEGORY_FEED_ATOM TRANSLATION_FEED_ATOM AUTHOR_FEED_ATOM
       AUTHOR_FEED_RSS MENUITEMS LINKS SOCIAL DEFAULT_PAGINATION
       PAGINATION_PATTERNS ARTICLE_URL ARTICLE_SAVE_AS PAGE_URL PAGE_SAVE_AS
       YEAR_ARCHIVE_SAVE_AS MONTH_ARCHIVE_SAVE_AS CATEGORY_URL CATEGORY_SAVE_AS
       CATEGORIES_SAVE_AS TAG_URL TAG_SAVE_AS TAGS_SAVE_AS AUTHOR_URL
       AUTHOR_SAVE_AS AUTHORS_SAVE_AS AUTHOR_META HOME_COVER].
  rewrite !as_feed_of, !as_pairs_of, as_patterns_of, as_meta_map_of.
  reflexivity.
Qed.

(** ** Reading back what [repr] wrote *)

#[local] Arguments String.append !s1 s2 : simpl nomatch.

Lemma fmap_app_nil (o : option (list token)) : app [] <$> o = o.
Proof. destruct o; reflexivity. Qed.

Lemma fmap_app_app (a b : list token) (o : option (list token)) :
  app a <$> (app b <$> o) = app (a ++ b) <$> o.
Proof. destruct o; cbn; [rewrite List.app_assoc |]; reflexivity. Qed.

Lemma append_assoc (a b c : string) : (a +:+ b) +:+ c = a +:+ (b +:+ c).
Proof. induction a as [| x a IH]; cbn; [| rewrite IH]; reflexivity. Qed.

Lemma snoc_append (acc : string) (c : ascii) (s : string) :
  snoc acc c +:+ s = acc +:+ String c s.
Proof. unfold snoc. rewrite append_assoc. reflexivity. Qed.

(** *** Strings *)

Ltac chars := cbv [quote dquote backslash newline tab cr] in *.

Lemma append_nil_r (s : string) : s +:+ "" = s.
Proof. induction s; cbn; congruence. Qed.

(** Inside a string, the escaped text of [s] up to the closing quote is
    read as [s]. *)
Lemma lex_escape (q : ascii) (s acc rest : string) (d : nat) :
  q = quote \/ q = dquote ->
  lex (LStr q acc) d (escape q s +:+ String q rest)
  = cons (TStr (acc +:+ s)) <$> lex LDefault d rest.
Proof.
  intros Hq. revert acc. induction s as [| c s IH]; intros acc.
  - cbn. rewrite Ascii.eqb_refl, append_nil_r. reflexivity.
  - cbn [escape]. rewrite append_assoc.
    destruct (Ascii.eqb_spec c backslash) as [-> | Hb];
      [| destruct (Ascii.eqb_spec c q) as [-> | Hcq];
         [| destruct (Ascii.eqb_spec c newline) as [-> | Hn];
            [| destruct (Ascii.eqb_spec c tab) as [-> | Ht];
               [| destruct (Ascii.eqb_spec c cr) as [-> | Hr]]]]].
    1-5: destruct Hq as [-> | ->]; chars; cbn; rewrite IH; unfold snoc;
      rewrite append_assoc; reflexivity.
    cbn [append lex].
    destruct (Ascii.eqb_spec c q); [contradiction |].
    destruct (Ascii.eqb_spec c backslash); [contradiction |].
    destruct (Ascii.eqb_spec c newline); [contradiction |].
    rewrite IH, snoc_append. reflexivity.
Qed.

(** One step of the reader outside a token. *)
Lemma lex_start (c : ascii) (r : string) (d : nat) (ts : list token)
  (m' : lex_mode) (d' : nat) :
  start_char c d = Some (ts, m', d') ->
  lex LDefault d (String c r) = app ts <$> lex m' d' r.
Proof. intros H. cbn [lex]. rewrite H. reflexivity. Qed.

(** The text [repr_str] writes is read as one string token. *)
Lemma lex_repr_str (s rest : string) (d : nat) :
  lex LDefault d (repr_str s +:+ rest) = cons (TStr s) <$> lex LDefault d rest.
Proof.
  unfold repr_str. rewrite append_assoc.
  assert (Hq : repr_quote s = quote \/ repr_quote s = dquote).
  { unfold repr_quote. destruct (_ && _); auto. }
  transitivity (lex (LStr (repr_quote s) "") d
                  (escape (repr_quote s) s +:+ String (repr_quote s) rest)).
  - cbn [append]. erewrite lex_start; [apply fmap_app_nil |].
    destruct Hq as [-> | ->]; reflexivity.
  - rewrite lex_escape by exact Hq. reflexivity.
Qed.

(** *** Names and integers *)

(** A number, or a name, ends where a delimiter stands. *)
Lemma lex_num_end (neg : bool) (z : Z) (d : nat) (rest : string) :
  delimiter rest ->
  lex (LNum neg z) d rest = cons (TInt (signed neg z)) <$> lex LDefault d rest.
Proof.
  destruct rest as [| c r]; cbn [delimiter]; intros H.
  - reflexivity.
  - unfold is_ident_char in H. apply orb_false_iff in H as [Hs Hd].
    cbn [lex]. rewrite Hd, Hs.
    destruct (start_char c d) as [[[ts m'] d'] |]; [| reflexivity].
    destruct (lex m' d' r); reflexivity.
Qed.

Lemma lex_name_end (x : string) (d : nat) (rest : string) :
  delimiter rest ->
  lex (LName x) d rest = cons (TName x) <$> lex LDefault d rest.
Proof.
  destruct rest as [| c r]; cbn [delimiter]; intros H.
  - reflexivity.
  - cbn [lex]. rewrite H.
    destruct (start_char c d) as [[[ts m'] d'] |]; [| reflexivity].
    destruct (lex m' d' r); reflexivity.
Qed.

Lemma digit_cases (m : N) :
  (m < 10)%N ->
  (m = 0 \/ m = 1 \/ m = 2 \/ m = 3 \/ m = 4 \/ m = 5 \/ m = 6 \/ m = 7
   \/ m = 8 \/ m = 9)%N.
Proof. lia. Qed.

(** A decimal digit starts a number, follows a minus sign and extends
    the number read so far. *)
Lemma lex_digit (m : N) (r : string) (d : nat) :
  (m < 10)%N ->
  lex LDefault d (String (pretty_N_char m) r)
  = lex (LNum false 0) d (String (pretty_N_char m) r) /\
  lex LMinus d (String (pretty_N_char m) r)
  = lex (LNum true 0) d (String (pretty_N_char m) r) /\
  forall neg z,
    lex (LNum neg z) d (String (pretty_N_char m) r)
    = lex (LNum neg (10 * z + Z.of_N m)) d r.
Proof.
  intros H. apply digit_cases in H.
  repeat (destruct H as [-> | H]); try subst m;
    (split; [cbn; apply fmap_app_nil | split; [reflexivity | intros; reflexivity]]).
Qed.

Lemma pretty_N_go_append (x : N) (s rest : string) :
  pretty_N_go x s +:+ rest = pretty_N_go x (s +:+ rest).
Proof.
  revert s. induction (N.lt_wf_0 x) as [x _ IH]; intros s.
  destruct (N.eq_dec x 0%N) as [-> | Hx].
  - rewrite !pretty_N_go_0. reflexivity.
  - rewrite (pretty_N_go_step x s), (pretty_N_go_step x (s +:+ rest)) by lia.
    rewrite IH; [reflexivity |]. apply N.div_lt; lia.
Qed.

(** Reading the decimal digits of [x] shifts the number read so far
    and adds [x]. *)
Lemma lex_pretty_N_go (x : N) (s : string) (neg : bool) (d : nat) :
  exists p, forall z,
    lex (LNum neg z) d (pretty_N_go x s) = lex (LNum neg (z * p + Z.of_N x)) d s.
Proof.
  revert s. induction (N.lt_wf_0 x) as [x _ IH]; intros s.
  destruct (N.eq_dec x 0%N) as [-> | Hx].
  - exists 1. intros z. rewrite pretty_N_go_0. f_equal. f_equal. cbn. lia.
  - rewrite pretty_N_go_step by lia.
    destruct (IH (x `div` 10)%N) with (s := String (pretty_N_char (x `mod` 10)) s)
      as [p Hp]; [apply N.div_lt; lia |].
    exists (10 * p). intros z. rewrite Hp.
    destruct (lex_digit (x `mod` 10) s d) as (_ & _ & ->);
      [apply N.mod_lt; lia |].
    f_equal. f_equal.
    rewrite (N.div_mod x 10) at 3 by lia.
    rewrite N2Z.inj_add, N2Z.inj_mul. cbn. lia.
Qed.

Lemma pretty_N_go_head (x : N) (s : string) :
  (0 < x)%N ->
  exists m r, (m < 10)%N /\ pretty_N_go x s = String (pretty_N_char m) r.
Proof.
  revert s. induction (N.lt_wf_0 x) as [x _ IH]; intros s Hx.
  rewrite pretty_N_go_step by exact Hx.
  destruct (N.eq_dec (x `div` 10)%N 0%N) as [-> | Hq].
  - rewrite pretty_N_go_0. exists (x `mod` 10)%N, s.
    split; [apply N.mod_lt; lia | reflexivity].
  - apply IH; [apply N.div_lt; lia | apply N.neq_0_lt_0, Hq].
Qed.

Lemma lex_pretty_pos (p : positive) (neg : bool) (rest : string) (d : nat) :
  lex (if neg then LMinus else LDefault) d (pretty_N_go (Npos p) "" +:+ rest)
  = lex (LNum neg (Zpos p)) d rest.
Proof.
  rewrite pretty_N_go_append. cbn [append].
  destruct (pretty_N_go_head (Npos p) rest) as (m & r & Hm & E); [lia |].
  destruct (lex_pretty_N_go (Npos p) rest neg d) as [k Hk].
  specialize (Hk 0). rewrite Z.mul_0_l, Z.add_0_l in Hk.
  change (Z.of_N (N.pos p)) with (Z.pos p) in Hk.
  rewrite <- Hk, E.
  destruct (lex_digit m r d Hm) as (H1 & H2 & _).
  destruct neg; [exact H2 | exact H1].
Qed.

(** The decimal text of an integer is read as that integer. *)
Lemma lex_repr_int (z : Z) (rest : string) (d : nat) :
  delimiter rest ->
  lex LDefault d (pretty z +:+ rest) = cons (TInt z) <$> lex LDefault d rest.
Proof.
  intros H. destruct z as [| p | p]; unfold pretty, pretty_Z.
  - transitivity (lex (LNum false 0) d rest).
    + cbn [append]. erewrite lex_start by reflexivity. apply fmap_app_nil.
    + apply (lex_num_end false 0), H.
  - unfold pretty, pretty_positive, pretty, pretty_N.
    destruct (decide (N.pos p = 0%N)); [discriminate |].
    rewrite (lex_pretty_pos p false). apply (lex_num_end false (Z.pos p)), H.
  - unfold pretty, pretty_positive, pretty, pretty_N.
    destruct (decide (N.pos p = 0%N)); [discriminate |].
    cbn [append]. erewrite lex_start by reflexivity. rewrite fmap_app_nil.
    rewrite (lex_pretty_pos p true). apply (lex_num_end true (Z.pos p)), H.
Qed.

(** *** Tuples and dicts *)

Lemma lexes_nil : lexes "" [].
Proof. intros d rest _. cbn [append]. symmetry. apply fmap_app_nil. Qed.

Lemma punct_comma_space : punct ", " [TComma].
Proof.
  split; [| reflexivity]. intros d rest. cbn [append].
  erewrite lex_start by reflexivity. erewrite lex_start by reflexivity.
  rewrite fmap_app_app. reflexivity.
Qed.

Lemma punct_colon_space : punct ": " [TColon].
Proof.
  split; [| reflexivity]. intros d rest. cbn [append].
  erewrite lex_start by reflexivity. erewrite lex_start by reflexivity.
  rewrite fmap_app_app. reflexivity.
Qed.

Lemma punct_comma : punct "," [TComma].
Proof.
  split; [| reflexivity]. intros d rest. cbn [append].
  erewrite lex_start by reflexivity. reflexivity.
Qed.

Lemma lexes_snoc (s1 sep : string) (t1 tsep : list token) :
  lexes s1 t1 -> punct sep tsep -> lexes (s1 +:+ sep) (t1 ++ tsep).
Proof.
  intros H1 [Hsep Hd] d rest _. rewrite append_assoc.
  rewrite H1 by apply Hd. rewrite Hsep. apply fmap_app_app.
Qed.

Lemma lexes_sep (s1 sep s2 : string) (t1 tsep t2 : list token) :
  lexes s1 t1 -> punct sep tsep -> lexes s2 t2 ->
  lexes (s1 +:+ sep +:+ s2) (t1 ++ tsep ++ t2).
Proof.
  intros H1 [Hsep Hd] H2 d rest Hrest. rewrite !append_assoc.
  rewrite H1 by apply Hd. rewrite Hsep. rewrite H2 by exact Hrest.
  rewrite !fmap_app_app, <- List.app_assoc. reflexivity.
Qed.

(** Brackets: what is inside is read one level deeper. *)
Lemma lexes_wrap (o c : ascii) (to tc : token) (s : string) (ts : list token) :
  (forall d, start_char o d = Some ([to], LDefault, S d)) ->
  (forall d, start_char c (S d) = Some ([tc], LDefault, d)) ->
  is_ident_char c = false ->
  lexes s ts ->
  lexes (String o s +:+ String c "") (to :: ts ++ [tc]).
Proof.
  intros Ho Hc Hd H d rest _. cbn [append]. rewrite append_assoc. cbn [append].
  rewrite (lex_start _ _ _ _ _ _ (Ho d)).
  rewrite H by exact Hd.
  rewrite (lex_start _ _ _ _ _ _ (Hc d)).
  rewrite !fmap_app_app. reflexivity.
Qed.

(** Items separated by a comma and a space. *)
Lemma lexes_join (l : list (string * list token)) :
  Forall (fun p => lexes (fst p) (snd p)) l ->
  lexes (join ", " (map fst l)) (sep_tokens (map snd l)).
Proof.
  induction l as [| [s t] l IH]; intros H.
  - apply lexes_nil.
  - apply Forall_cons in H as [Hs Hl]. specialize (IH Hl).
    destruct l as [| [s' t'] l']; [exact Hs |].
    exact (lexes_sep _ _ _ _ _ _ Hs punct_comma_space IH).
Qed.

Lemma start_ident (c : ascii) (d : nat) :
  is_ident_start c = true ->
  start_char c d = Some ([], LName (String c ""), d).
Proof.
  destruct c as [[] [] [] [] [] [] [] []]; intros H;
    first [discriminate H | reflexivity].
Qed.

Lemma lex_name_chars (r acc rest : string) (d : nat) :
  forallb is_ident_char (list_ascii_of_string r) = true ->
  delimiter rest ->
  lex (LName acc) d (r +:+ rest) = cons (TName (acc +:+ r)) <$> lex LDefault d rest.
Proof.
  revert acc. induction r as [| c r IH]; intros acc Hr Hd.
  - cbn [append]. rewrite append_nil_r. apply lex_name_end, Hd.
  - cbn in Hr. apply andb_true_iff in Hr as [Hc Hr].
    cbn [append lex]. rewrite Hc, IH by assumption.
    rewrite snoc_append. reflexivity.
Qed.

(** An identifier is read as one name. *)
Lemma lexes_identifier (x : string) :
  is_identifier x = true -> lexes x [TName x].
Proof.
  destruct x as [| c r]; [discriminate |]. cbn [is_identifier].
  intros H d rest Hd. apply andb_true_iff in H as [Hc Hr].
  cbn [append]. rewrite (lex_start _ _ _ _ _ _ (start_ident c d Hc)).
  rewrite lex_name_chars by assumption. apply fmap_app_nil.
Qed.

(** The text [repr] writes for a value is read as the tokens of the
    value. *)
Lemma lexes_repr (v : pyval) : lexes (repr v) (tokens v).
Proof.
  induction v as [| z | s | items IH | entries IH] using pyval_nested_ind.
  - apply (lexes_identifier "None"). reflexivity.
  - intros d rest Hd. apply lex_repr_int, Hd.
  - intros d rest _. apply lex_repr_str.
  - destruct items as [| x [| y items]].
    + apply (lexes_wrap "(" ")" TLPar TRPar "" []); try reflexivity.
      apply lexes_nil.
    + apply Forall_cons in IH as [Hx _].
      replace (repr (VTuple [x]))
        with (String "(" (repr x +:+ ",") +:+ String ")" "")
        by (cbn [repr append]; rewrite append_assoc; reflexivity).
      replace (tokens (VTuple [x]))
        with (TLPar :: (tokens x ++ [TComma]) ++ [TRPar])
        by (cbn [tokens]; rewrite <- List.app_assoc; reflexivity).
      apply lexes_wrap; try reflexivity.
      apply lexes_snoc; [exact Hx | apply punct_comma].
    + change (lexes (String "(" (join ", " (map repr (x :: y :: items)))
                     +:+ String ")" "")
                (TLPar :: sep_tokens (map tokens (x :: y :: items)) ++ [TRPar])).
      apply lexes_wrap; try reflexivity.
      pose proof (lexes_join (map (fun v => (repr v, tokens v)) (x :: y :: items)))
        as J.
      rewrite !map_map in J. apply J.
      apply Forall_map. exact IH.
  - change (lexes (String "{" (join ", "
                     (map (fun '(k, x) => repr k +:+ ": " +:+ repr x) entries))
                   +:+ String "}" "")
              (TLBrace :: sep_tokens (map (fun '(k, x) => tokens k ++ TColon :: tokens x)
                                        entries) ++ [TRBrace])).
    apply lexes_wrap; try reflexivity.
    pose proof (lexes_join
                  (map (fun '(k, x) => (repr k +:+ ": " +:+ repr x,
                                        tokens k ++ TColon :: tokens x)) entries))
      as J.
    rewrite !map_map in J.
    erewrite (map_ext _ (fun '(k, x) => repr k +:+ ": " +:+ repr x)) in J
      by (intros [? ?]; reflexivity).
    erewrite (map_ext (fun x => snd _) (fun '(k, x) => tokens k ++ TColon :: tokens x)) in J
      by (intros [? ?]; reflexivity).
    apply J. apply Forall_map. eapply Forall_impl; [exact IH |].
    intros [k x] [Hk Hx]. cbn. exact (lexes_sep _ _ _ _ _ _ Hk punct_colon_space Hx).
Qed.

(** *** The text of a namespace *)

(** The text [dump] writes is read as the tokens of its statements. *)
Lemma lex_dump (ns : list (string * pyval)) :
  forallb (fun s => is_identifier (fst s)) ns = true ->
  lex LDefault O (dump ns) = Some (flat_map statement_tokens ns).
Proof.
  induction ns as [| [x v] ns IH]; intros H.
  - reflexivity.
  - cbn in H. apply andb_true_iff in H as [Hx Hns].
    cbn [dump fold_right flat_map].
    change (fold_right _ _ ns) with (dump ns).
    rewrite (lexes_identifier x Hx) by reflexivity. cbn [append].
    erewrite lex_start by reflexivity. erewrite lex_start by reflexivity.
    erewrite lex_start by reflexivity.
    rewrite lexes_repr by reflexivity.
    erewrite lex_start by reflexivity.
    rewrite (IH Hns). cbn. rewrite <- List.app_assoc. reflexivity.
Qed.

(** *** Parsing the tokens of a value *)

Lemma tokens_opens (v : pyval) (r : list token) : opens (tokens v ++ r).
Proof.
  destruct v as [| | | [| x [| y l]] | es]; exact I.
Qed.

Lemma parse_expr_open (n : nat) (ts : list token) :
  opens ts ->
  parse_expr (S n) (TLPar :: ts)
  = match parse_expr n ts with
    | Some (v, TRPar :: r') => Some (v, r')
    | Some (v, TComma :: r') =>
        match parse_items n r' with
        | Some (vs, r'') => Some (VTuple (v :: vs), r'')
        | None => None
        end
    | _ => None
    end.
Proof. destruct ts as [| [] ts]; cbn [opens]; intros H; first [contradiction | reflexivity]. Qed.

Lemma parse_items_open (n : nat) (ts : list token) :
  opens ts ->
  parse_items (S n) ts
  = match parse_expr n ts with
    | Some (v, TRPar :: r) => Some ([v], r)
    | Some (v, TComma :: r) =>
        match parse_items n r with
        | Some (vs, r') => Some (v :: vs, r')
        | None => None
        end
    | _ => None
    end.
Proof. destruct ts as [| [] ts]; cbn [opens]; intros H; first [contradiction | reflexivity]. Qed.

Lemma parse_entries_open (n : nat) (ts : list token) :
  opens ts ->
  parse_entries (S n) ts
  = match parse_expr n ts with
    | Some (k, TColon :: r) =>
        match parse_expr n r with
        | Some (v, TRBrace :: r') => Some ([(k, v)], r')
        | Some (v, TComma :: r') =>
            match parse_entries n r' with
            | Some (es, r'') => Some ((k, v) :: es, r'')
            | None => None
            end
        | _ => None
        end
    | _ => None
    end.
Proof. destruct ts as [| [] ts]; cbn [opens]; intros H; first [contradiction | reflexivity]. Qed.

Ltac lens H :=
  repeat first [rewrite length_app in H | progress cbn [List.length] in H].

Lemma parse_items_tokens (l : list pyval) (fuel : nat) (r : list token) :
  l <> [] -> Forall parses l ->
  (List.length (sep_tokens (map tokens l)) + 1 <= fuel)%nat ->
  parse_items fuel (sep_tokens (map tokens l) ++ TRPar :: r) = Some (l, r).
Proof.
  revert fuel. induction l as [| x l IH]; intros fuel Hne H Hfuel; [contradiction |].
  apply Forall_cons in H as [Hx Hl].
  destruct fuel as [| n]; [lia |].
  destruct l as [| y l].
  - cbn [map sep_tokens] in *.
    rewrite parse_items_open by apply tokens_opens.
    rewrite Hx by lia. reflexivity.
  - change (sep_tokens (map tokens (x :: y :: l)))
      with (tokens x ++ TComma :: sep_tokens (map tokens (y :: l))) in *.
    lens Hfuel.
    rewrite <- List.app_assoc. cbn [app].
    rewrite parse_items_open by apply tokens_opens.
    rewrite Hx by lia.
    rewrite IH; [reflexivity | discriminate | exact Hl | lia].
Qed.

Lemma parse_entries_tokens (es : list (pyval * pyval)) (fuel : nat)
  (r : list token) :
  es <> [] -> Forall (fun e => parses (fst e) /\ parses (snd e)) es ->
  (List.length (sep_tokens (map entry_tokens es)) + 1 <= fuel)%nat ->
  parse_entries fuel (sep_tokens (map entry_tokens es) ++ TRBrace :: r)
  = Some (es, r).
Proof.
  revert fuel. induction es as [| [k v] es IH]; intros fuel Hne H Hfuel;
    [contradiction |].
  apply Forall_cons in H as [[Hk Hv] Hes]. cbn [fst snd] in Hk, Hv.
  destruct fuel as [| n]; [lia |].
  destruct es as [| e es].
  - cbn [map sep_tokens entry_tokens] in *.
    lens Hfuel.
    rewrite <- List.app_assoc. cbn [app].
    rewrite parse_entries_open by apply tokens_opens.
    rewrite Hk by lia. rewrite Hv by lia. reflexivity.
  - change (sep_tokens (map entry_tokens ((k, v) :: e :: es)))
      with ((tokens k ++ TColon :: tokens v)
              ++ TComma :: sep_tokens (map entry_tokens (e :: es))) in *.
    lens Hfuel.
    rewrite <- !List.app_assoc. cbn [app].
    rewrite parse_entries_open by apply tokens_opens.
    rewrite Hk by lia. rewrite Hv by lia.
    rewrite IH; [reflexivity | discriminate | exact Hes | lia].
Qed.

(** The tokens of a value are parsed as that value. *)
Lemma parses_all (v : pyval) : parses v.
Proof.
  induction v as [| z | s | items IH | entries IH] using pyval_nested_ind;
    intros fuel r Hfuel.
  - destruct fuel; [cbn in Hfuel; lia | reflexivity].
  - destruct fuel; [cbn in Hfuel; lia | reflexivity].
  - destruct fuel; [cbn in Hfuel; lia | reflexivity].
  - destruct items as [| x [| y items]].
    + destruct fuel; [cbn in Hfuel; lia | reflexivity].
    + pose proof IH as IH'. apply Forall_cons in IH' as [Hx _].
      cbn [tokens] in *. lens Hfuel.
      destruct fuel as [| n]; [lia |].
      cbn [app]. rewrite <- List.app_assoc. cbn [app].
      rewrite parse_expr_open by apply tokens_opens.
      rewrite Hx by lia.
      destruct n as [| n]; [lia | reflexivity].
    + pose proof IH as IH'. apply Forall_cons in IH' as [Hx Hl].
      change (tokens (VTuple (x :: y :: items)))
        with (TLPar :: (tokens x ++ TComma :: sep_tokens (map tokens (y :: items)))
                    ++ [TRPar]) in *.
      lens Hfuel.
      destruct fuel as [| n]; [lia |].
      cbn [app]. rewrite <- !List.app_assoc. cbn [app].
      rewrite parse_expr_open by apply tokens_opens.
      rewrite Hx by lia.
      rewrite parse_items_tokens; [reflexivity | discriminate | exact Hl | lia].
  - change (tokens (VDict entries))
      with (TLBrace :: sep_tokens (map entry_tokens entries) ++ [TRBrace]) in *.
    lens Hfuel.
    destruct fuel as [| n]; [lia |].
    cbn [app]. rewrite <- List.app_assoc. cbn [app parse_expr].
    destruct entries as [| e es].
    + destruct n; [lia | reflexivity].
    + rewrite parse_entries_tokens; [reflexivity | discriminate | exact IH | lia].
Qed.

(** The tokens of statements are parsed as those statements. *)
Lemma parse_module_statements (ns : list (string * pyval)) (fuel : nat) :
  (List.length (flat_map statement_tokens ns) < fuel)%nat ->
  parse_module fuel (flat_map statement_tokens ns) = Some ns.
Proof.
  revert fuel. induction ns as [| [x v] ns IH]; intros fuel Hfuel.
  - destruct fuel; [lia | reflexivity].
  - cbn [flat_map] in *. unfold statement_tokens at 1 in Hfuel.
    unfold statement_tokens at 1. cbn [fst snd] in *. lens Hfuel.
    destruct fuel as [| n]; [lia |].
    cbn [app]. rewrite <- List.app_assoc. cbn [app parse_module].
    rewrite parses_all by lia.
    rewrite IH by lia. reflexivity.
Qed.

(** Reading what [dump] wrote gives the statements back. *)
Lemma parse_dump (ns : list (string * pyval)) :
  forallb (fun s => is_identifier (fst s)) ns = true ->
  parse (dump ns) = Some ns.
Proof.
  intros H. unfold parse. rewrite (lex_dump ns H). cbn [mbind option_bind].
  apply parse_module_statements. lia.
Qed.

(** Serializing any settings record and loading the text gives the
    record back. *)
Lemma load_serialize (c : Settings) : load (serialize c) = Some c.
Proof.
  unfold load, run, serialize.
  rewrite parse_dump by reflexivity.
  cbn [fmap option_fmap option_map mbind option_bind].
  rewrite exec_to_namespace. apply of_to_namespace.
Qed.

#[local] Arguments String.append : simpl never.

(** ** Loading twice, and the round trip *)

(** C7: loading is a function of the text, so reading the file again
    gives the same record and the same menu items in the same order;
    running the file once more in the namespace it left does so too.
    Serializing the loaded record and loading the result gives the
    record back, field for field, as it does for every settings
    record. *)
Theorem load_serialize_round_trip :
  load pelicanconf_py = Some pelicanconf /\
  MENUITEMS <$> load pelicanconf_py = Some (MENUITEMS pelicanconf) /\
  (run pelicanconf_py [] ≫= run pelicanconf_py) = run pelicanconf_py [] /\
  (run pelicanconf_py [] ≫= run pelicanconf_py) ≫= of_namespace
  = Some pelicanconf /\
  load (serialize pelicanconf) = Some pelicanconf /\
  (forall c : Settings, load (serialize c) = Some c).
Proof.
  assert (Hrun : run pelicanconf_py [] ≫= run pelicanconf_py
                 = run pelicanconf_py []).
  { destruct (run pelicanconf_py []) as [ns |] eqn:E; [| reflexivity].
    cbn. apply run_idempotent with (ns := []), E. }
  split; [exact load_pelicanconf_py |].
  split; [rewrite load_pelicanconf_py; reflexivity |].
  split; [exact Hrun |].
  split; [rewrite Hrun; exact load_pelicanconf_py |].
  split; [apply load_serialize | exact load_serialize].
Qed.

(** ** Output paths, pagination and the module as a whole *)

#[local] Arguments String.append !s1 s2 : simpl nomatch.

Ltac norm_append :=
  repeat first [rewrite append_assoc | progress cbn [String.append]].

Lemma append_cancel_l (a b c : string) : a +:+ b = a +:+ c -> b = c.
Proof. induction a as [| x a IH]; cbn; intros H; [exact H | injection H; exact IH]. Qed.

Lemma length_append (a b : string) :
  String.length (a +:+ b) = (String.length a + String.length b)%nat.
Proof. induction a as [| x a IH]; cbn; [| rewrite IH]; reflexivity. Qed.

Lemma append_cancel_r (a b c : string) : a +:+ c = b +:+ c -> a = b.
Proof.
  revert b. induction a as [| x a IH]; intros [| y b] H; cbn in H.
  - reflexivity.
  - apply (f_equal String.length) in H. cbn in H. rewrite length_append in H. lia.
  - apply (f_equal String.length) in H. cbn in H. rewrite length_append in H. lia.
  - injection H as -> H. f_equal. apply IH, H.
Qed.

(** Two texts cut at their first slash agree part by part. *)
Lemma split_at_slash (a a' b b' : string) :
  has_char "/" a = false -> has_char "/" a' = false ->
  a +:+ String "/" b = a' +:+ String "/" b' -> a = a' /\ b = b'.
Proof.
  unfold has_char. revert a'.
  induction a as [| x a IH]; intros [| y a'] Ha Ha' H; cbn in *.
  - injection H as ->. split; reflexivity.
  - injection H as <- _. cbn in Ha'. discriminate.
  - injection H as -> _. cbn in Ha. discriminate.
  - injection H as -> H.
    apply orb_false_iff in Ha as [_ Ha]. apply orb_false_iff in Ha' as [_ Ha'].
    destruct (IH a' Ha Ha' H) as [-> ->]. split; reflexivity.
Qed.

(** X1: whatever the engine supplies, the file written for a page, a
    category, a tag, an author or a page of a listing is the index.html
    of the directory its URL names. *)
Theorem save_path_is_directory_index (lookup : string -> string -> option string) :
  format lookup (PAGE_SAVE_AS pelicanconf)
  = (fun u => u +:+ "index.html") <$> format lookup (PAGE_URL pelicanconf) /\
  format lookup (CATEGORY_SAVE_AS pelicanconf)
  = (fun u => u +:+ "/index.html") <$> format lookup (CATEGORY_URL pelicanconf) /\
  format lookup (TAG_SAVE_AS pelicanconf)
  = (fun u => u +:+ "/index.html") <$> format lookup (TAG_URL pelicanconf) /\
  format lookup (AUTHOR_SAVE_AS pelicanconf)
  = (fun u => u +:+ "/index.html") <$> format lookup (AUTHOR_URL pelicanconf) /\
  Forall (fun p => format lookup (snd p)
                   = (fun u => u +:+ "index.html") <$> format lookup (snd (fst p)))
    (PAGINATION_PATTERNS pelicanconf).
Proof.
  repeat split.
  1-4: cbv [format PAGE_SAVE_AS PAGE_URL CATEGORY_SAVE_AS CATEGORY_URL TAG_SAVE_AS
           TAG_URL AUTHOR_SAVE_AS AUTHOR_URL pelicanconf]; cbn;
    destruct (lookup "slug" ""); cbn; rewrite ?append_assoc; reflexivity.
  repeat apply List.Forall_cons; [| | apply List.Forall_nil]; cbn [fst snd];
    unfold format; cbn.
  - destruct (lookup "base_name" ""); cbn; rewrite ?append_assoc; reflexivity.
  - destruct (lookup "base_name" ""), (lookup "number" ""); cbn;
      rewrite ?append_assoc; cbn; rewrite ?append_assoc; reflexivity.
Qed.

(** X2: an article is written into the directory of its month's archive,
    which lies in the directory of its year's archive, and it takes the
    place of the month archive's index exactly when its slug is
    "index". *)
Theorem article_in_month_archive (year month slug : string) :
  let dir := year +:+ "/" +:+ month +:+ "/" in
  format (article_fields year month slug) (YEAR_ARCHIVE_SAVE_AS pelicanconf)
  = Some (year +:+ "/index.html") /\
  format (article_fields year month slug) (MONTH_ARCHIVE_SAVE_AS pelicanconf)
  = Some (dir +:+ "index.html") /\
  format (article_fields year month slug) (ARTICLE_SAVE_AS pelicanconf)
  = Some (dir +:+ slug +:+ ".html") /\
  (format (article_fields year month slug) (ARTICLE_SAVE_AS pelicanconf)
   = format (article_fields year month slug) (MONTH_ARCHIVE_SAVE_AS pelicanconf)
   <-> slug = "index").
Proof.
  cbv zeta.
  assert (Hm : format (article_fields year month slug)
                 (MONTH_ARCHIVE_SAVE_AS pelicanconf)
               = Some ((year +:+ "/" +:+ month +:+ "/") +:+ "index.html")).
  { unfold format. cbn. norm_append. reflexivity. }
  assert (Ha : format (article_fields year month slug)
                 (ARTICLE_SAVE_AS pelicanconf)
               = Some ((year +:+ "/" +:+ month +:+ "/") +:+ slug +:+ ".html")).
  { unfold format. cbn. norm_append. reflexivity. }
  split; [reflexivity |]. split; [exact Hm |]. split; [exact Ha |].
  rewrite Ha, Hm. split.
  - intros [= H]. apply append_cancel_l in H.
    apply (append_cancel_r slug "index" ".html"), H.
  - intros ->. reflexivity.
Qed.

(** X3: two articles are written to the same file only when they have
    the same year, the same month and the same slug; years and months,
    being digits, hold no slash. *)
Theorem article_paths_injective (y m s y' m' s' : string) :
  has_char "/" y = false -> has_char "/" m = false ->
  has_char "/" y' = false -> has_char "/" m' = false ->
  format (article_fields y m s) (ARTICLE_SAVE_AS pelicanconf)
  = format (article_fields y' m' s') (ARTICLE_SAVE_AS pelicanconf) ->
  y = y' /\ m = m' /\ s = s'.
Proof.
  intros Hy Hm Hy' Hm'. unfold format. cbn. intros [= H].
  apply split_at_slash in H as [-> H]; [| assumption ..].
  apply split_at_slash in H as [-> H]; [| assumption ..].
  apply (append_cancel_r s s' ".html") in H. auto.
Qed.

Lemma article_paths_injective_witness :
  has_char "/" "2019" = false /\ has_char "/" "03" = false /\
  format (article_fields "2019" "03" "first-post") (ARTICLE_SAVE_AS pelicanconf)
  = Some "2019/03/first-post.html" /\
  ("2019" = "2019" /\ "03" = "03" /\ "first-post" = "first-post").
Proof.
  split; [reflexivity |]. split; [reflexivity |]. split; [reflexivity |].
  apply (article_paths_injective "2019" "03" "first-post" "2019" "03" "first-post");
    reflexivity.
Defined.

(** X4: a category, a tag, an author and a page never share a file, two
    of one kind share a file only when they have the same slug, and none
    is written over an overview page. *)
Theorem slug_pages_never_collide (i j : nat) (t1 t2 : string)
  (l1 l2 : string -> string -> option string) (p : string) :
  slug_save_paths pelicanconf !! i = Some t1 ->
  slug_save_paths pelicanconf !! j = Some t2 ->
  format l1 t1 = Some p -> format l2 t2 = Some p ->
  i = j /\ l1 "slug" "" = l2 "slug" "" /\ ~ In p (overview_save_paths pelicanconf).
Proof.
  intros Hi Hj.
  destruct i as [| [| [| [| i]]]]; cbn in Hi; try discriminate;
    injection Hi as <-;
    (destruct j as [| [| [| [| j]]]]; cbn in Hj; try discriminate;
     injection Hj as <-);
    unfold format; cbn;
    destruct (l1 "slug" "") as [x |]; cbn; try discriminate;
    destruct (l2 "slug" "") as [x' |]; cbn; try discriminate;
    intros [= <-]; intros [= H];
    try discriminate H.
  all: split; [reflexivity |]; split.
  all: try (f_equal; symmetry; exact (append_cancel_r x' x "/index.html" H)).
  all: cbn; intros [E | [E | [E | []]]]; discriminate E.
Qed.

Lemma slug_pages_never_collide_witness :
  slug_save_paths pelicanconf !! 0%nat = Some (CATEGORY_SAVE_AS pelicanconf) /\
  format (slug_fields "testing") (CATEGORY_SAVE_AS pelicanconf)
  = Some "category/testing/index.html" /\
  ((0 = 0)%nat /\
   slug_fields "testing" "slug" "" = slug_fields "testing" "slug" "" /\
   ~ In "category/testing/index.html" (overview_save_paths pelicanconf)).
Proof.
  split; [reflexivity |]. split; [reflexivity |].
  apply (slug_pages_never_collide 0 0 (CATEGORY_SAVE_AS pelicanconf)
           (CATEGORY_SAVE_AS pelicanconf) (slug_fields "testing")
           (slug_fields "testing") "category/testing/index.html");
    reflexivity.
Defined.

(** X5: every page number from 1 on has a pattern whose threshold it
    reaches; at page 1 that is the first pattern only, and neither of
    its templates holds the page number. *)
Theorem every_page_has_a_pattern (n : Z) :
  1 <= n ->
  Exists (fun p => fst (fst p) <= n) (PAGINATION_PATTERNS pelicanconf) /\
  (n = 1 ->
   forall p, In p (PAGINATION_PATTERNS pelicanconf) -> fst (fst p) <= n ->
     placeholders (snd (fst p)) = Some ["base_name"] /\
     placeholders (snd p) = Some ["base_name"]).
Proof.
  intros Hn. split.
  - apply Exists_cons_hd. cbn. exact Hn.
  - intros -> p [<- | [<- | []]] Hp; cbn in Hp.
    + split; reflexivity.
    + lia.
Qed.

Lemma every_page_has_a_pattern_witness :
  Exists (fun p => fst (fst p) <= 1) (PAGINATION_PATTERNS pelicanconf) /\
  (1 = 1 ->
   forall p, In p (PAGINATION_PATTERNS pelicanconf) -> fst (fst p) <= 1 ->
     placeholders (snd (fst p)) = Some ["base_name"] /\
     placeholders (snd p) = Some ["base_name"]).
Proof. apply (every_page_has_a_pattern 1). lia. Defined.

(** X6: a pagination pattern either starts at page 2 or later and gives
    two page numbers of one listing different URLs and different files,
    or starts at page 1 and gives every page number the same URL and the
    same file. *)
Theorem page_numbers_and_patterns (p : Z * string * string) :
  In p (PAGINATION_PATTERNS pelicanconf) ->
  (2 <= fst (fst p) /\
   forall base n1 n2,
     (format (page_fields base n1) (snd (fst p))
      = format (page_fields base n2) (snd (fst p)) -> n1 = n2) /\
     (format (page_fields base n1) (snd p)
      = format (page_fields base n2) (snd p) -> n1 = n2))
  \/
  (fst (fst p) = 1 /\
   forall base n1 n2,
     format (page_fields base n1) (snd (fst p))
     = format (page_fields base n2) (snd (fst p)) /\
     format (page_fields base n1) (snd p) = format (page_fields base n2) (snd p)).
Proof.
  intros [<- | [<- | []]]; cbn [fst snd].
  - right. split; [reflexivity |]. intros base n1 n2. split; reflexivity.
  - left. split; [lia |]. intros base n1 n2.
    split; unfold format; cbn; intros [= H];
      apply append_cancel_l in H; injection H as H.
    + apply (append_cancel_r _ _ "/") in H. apply (inj pretty), H.
    + apply (append_cancel_r _ _ "/index.html") in H. apply (inj pretty), H.
Qed.

Lemma page_numbers_and_patterns_witness :
  let p := (2, "{base_name}/page/{number}/", "{base_name}/page/{number}/index.html") in
  In p (PAGINATION_PATTERNS pelicanconf) /\
  ((2 <= fst (fst p) /\
    forall base n1 n2,
      (format (page_fields base n1) (snd (fst p))
       = format (page_fields base n2) (snd (fst p)) -> n1 = n2) /\
      (format (page_fields base n1) (snd p)
       = format (page_fields base n2) (snd p) -> n1 = n2))
   \/
   (fst (fst p) = 1 /\
    forall base n1 n2,
      format (page_fields base n1) (snd (fst p))
      = format (page_fields base n2) (snd (fst p)) /\
      format (page_fields base n1) (snd p) = format (page_fields base n2) (snd p))).
Proof.
  cbv zeta.
  assert (H : In (2, "{base_name}/page/{number}/", "{base_name}/page/{number}/index.html")
                (PAGINATION_PATTERNS pelicanconf)) by (cbn; tauto).
  split; [exact H |].
  exact (page_numbers_and_patterns _ H).
Defined.

(** X7: every template expands with the fields of its own kind of
    content alone: article templates with the year and month of the date
    and the slug, the period archives with the date, page, category, tag
    and author templates with the slug, pagination templates with the
    base name and the page number. *)
Theorem templates_expand_by_kind :
  (forall year month slug,
      Forall (fun t => is_Some (format (article_fields year month slug) t))
        [ ARTICLE_URL pelicanconf; ARTICLE_SAVE_AS pelicanconf ]) /\
  (forall year month,
      Forall (fun t => is_Some (format (date_fields year month) t))
        [ YEAR_ARCHIVE_SAVE_AS pelicanconf; MONTH_ARCHIVE_SAVE_AS pelicanconf ]) /\
  (forall slug,
      Forall (fun t => is_Some (format (slug_fields slug) t))
        [ PAGE_URL pelicanconf; PAGE_SAVE_AS pelicanconf;
          CATEGORY_URL pelicanconf; CATEGORY_SAVE_AS pelicanconf;
          TAG_URL pelicanconf; TAG_SAVE_AS pelicanconf;
          AUTHOR_URL pelicanconf; AUTHOR_SAVE_AS pelicanconf ]) /\
  (forall base number,
      Forall (fun p => is_Some (format (page_fields base number) (snd (fst p)))
                       /\ is_Some (format (page_fields base number) (snd p)))
        (PAGINATION_PATTERNS pelicanconf)).
Proof.
  repeat split; intros;
    repeat (apply List.Forall_cons; [try split; eexists; reflexivity |]);
    apply List.Forall_nil.
Qed.

(** The statements of the file are those of the record, in the order of
    the record's fields. *)
Lemma parse_pelicanconf_py : parse pelicanconf_py = Some (to_namespace pelicanconf).
Proof. vm_compute. reflexivity. Qed.

Lemma bind_fresh (x : string) (v : pyval) (ns : list (string * pyval)) :
  ~ In x (map fst ns) -> bind x v ns = ns ++ [(x, v)].
Proof.
  induction ns as [| [y w] r IH]; cbn; intros Hn; [reflexivity |].
  destruct (String.eqb_spec x y) as [-> | _]; [tauto |].
  rewrite IH by tauto. reflexivity.
Qed.

(** Assignments to names that are all different and not yet bound are
    added in their order. *)
Lemma exec_fresh (p : list (string * pyval)) (ns : list (string * pyval)) :
  NoDup (map fst (ns ++ p)) -> exec p ns = ns ++ p.
Proof.
  revert ns. induction p as [| [x v] p IH]; intros ns H; cbn.
  - rewrite app_nil_r. reflexivity.
  - rewrite bind_fresh.
    + rewrite IH; rewrite <- List.app_assoc; [reflexivity | exact H].
    + rewrite map_app in H. apply NoDup_app in H as (_ & H & _).
      intros Hin. apply (H x); [apply list_elem_of_In, Hin | left].
Qed.

(** X8: the file is 34 assignments; no name is assigned twice, so no
    assignment is overridden and the namespace holds the statements in
    the order of the file; every name is a setting name in upper case;
    and [RELATIVE_URLS], whose assignment is commented out, is left
    unbound. *)
Theorem module_assigns_each_name_once :
  exists prog,
    parse pelicanconf_py = Some prog /\
    List.length prog = 34%nat /\
    NoDup (map fst prog) /\
    Forall (fun x => is_setting_name x = true) (map fst prog) /\
    run pelicanconf_py [] = Some prog /\
    lookup_name "RELATIVE_URLS" prog = None.
Proof.
  exists (to_namespace pelicanconf).
  assert (Hnd : NoDup (map fst (to_namespace pelicanconf))).
  { apply (bool_decide_unpack _). vm_compute. exact I. }
  split; [exact parse_pelicanconf_py |].
  split; [reflexivity |].
  split; [exact Hnd |].
  split; [cbn [map to_namespace fst];
          repeat (apply List.Forall_cons; [reflexivity |]);
          apply List.Forall_nil |].
  split; [| reflexivity].
  unfold run. rewrite parse_pelicanconf_py. cbn [fmap option_fmap option_map].
  apply (f_equal Some). apply (exec_fresh _ []). exact Hnd.
Qed.

(** X9: every menu entry is the home link, the link to the site
    author's page, or the link to the category its label names: its path
    is the URL that [AUTHOR_URL] or [CATEGORY_URL] gives for the slug of
    the name, between slashes, and the matching save path writes the
    index file of that directory. *)
Theorem menu_links_follow_templates :
  Forall
    (fun item =>
       item = ("Home", "/") \/
       exists slug url,
         (fst item = "Author" /\ slug = normalize slug_separator (AUTHOR pelicanconf)
          /\ format (slug_fields slug) (AUTHOR_URL pelicanconf) = Some url
          /\ format (slug_fields slug) (AUTHOR_SAVE_AS pelicanconf)
             = Some (url +:+ "/index.html")
          \/
          slug = normalize slug_separator (fst item)
          /\ format (slug_fields slug) (CATEGORY_URL pelicanconf) = Some url
          /\ format (slug_fields slug) (CATEGORY_SAVE_AS pelicanconf)
             = Some (url +:+ "/index.html"))
         /\ snd item = "/" +:+ url +:+ "/")
    (MENUITEMS pelicanconf).
Proof.
  apply List.Forall_cons; [left; reflexivity |].
  apply List.Forall_cons;
    [right; eexists; eexists; split;
     [left; repeat split; reflexivity | reflexivity] |].
  repeat (apply List.Forall_cons;
          [right; eexists; eexists; split;
           [right; repeat split; reflexivity | reflexivity] |]).
  apply List.Forall_nil.
Qed.

(** X10: the site author has an entry in the author metadata: it stands
    under the author's name in lower case and carries the same name; its
    image and the home cover are paths inside the site. *)
Theorem site_author_has_metadata :
  exists a,
    AUTHOR_META pelicanconf !! normalize key_separator (AUTHOR pelicanconf) = Some a /\
    name a = AUTHOR pelicanconf /\
    is_relative (image a) = true /\
    is_relative (HOME_COVER pelicanconf) = true.
Proof.
  eexists. split; [vm_compute; reflexivity |]. repeat split.
Qed.

#[local] Arguments String.append : simpl never.
